(** * Retrieval-and-answer pipeline of the museum assistant

    A shallow embedding of
    - [supabase/functions/rag_chat/index.ts] (the edge function: request
      validation, structured-fact resolver, relevance gate, refusals),
    - the SQL function [public.match_chunks] (migration 003), and
    - the [CitationList] component of the frontend (citation dedupe),
    together with the properties the specification states about them.

    Conventions of the embedding.
    - A JavaScript string is a [string] of bytes; the case mappings and the
      regular-expression character tests act on the ASCII range, every other
      byte is left alone and is a non-word character.
    - A JavaScript number is a [number]: a finite value kept as the rational
      it denotes, or NaN, or a signed infinity.
    - The upstream services (tenant lookup, embeddings, vector search, source
      lookup, chat completion) are fields of an [Upstream] record; every call
      the handler makes to one of them is written to a trace. *)

From Stdlib Require Import List Bool Arith ZArith QArith Qround Lia.
From Stdlib Require Import Ascii String.
From Stdlib Require Import Permutation Sorted Lqa.
From Stdlib Require Import DecimalString.
Import ListNotations.

Set Implicit Arguments.

Local Open Scope string_scope.
Local Open Scope list_scope.

(* ================================================================== *)
(** ** Characters and strings *)

Module Chars.

Definition code (c : ascii) : nat := nat_of_ascii c.

Definition between (lo hi : nat) (c : ascii) : bool :=
  (lo <=? code c)%nat && (code c <=? hi)%nat.

Definition is_upper : ascii -> bool := between 65 90.
Definition is_lower : ascii -> bool := between 97 122.
Definition is_digit : ascii -> bool := between 48 57.

(** The word characters of [\b] and [\w]: [A-Za-z0-9_]. *)
Definition is_word (c : ascii) : bool :=
  is_upper c || is_lower c || is_digit c || (code c =? 95)%nat.

(** [String.prototype.toLowerCase], one character. *)
Definition lower (c : ascii) : ascii :=
  if is_upper c then ascii_of_nat (code c + 32) else c.

(** Canonicalize of a case-insensitive RegExp: the upper-case mapping. *)
Definition upper (c : ascii) : ascii :=
  if is_lower c then ascii_of_nat (code c - 32) else c.

(** White space removed by [String.prototype.trim]. *)
Definition is_space (c : ascii) : bool :=
  between 9 13 c || (code c =? 32)%nat.

(** Line terminators, which [.] does not match. *)
Definition is_newline (c : ascii) : bool :=
  (code c =? 10)%nat || (code c =? 13)%nat.

End Chars.

Definition chars (s : string) : list ascii := list_ascii_of_string s.
Definition text (l : list ascii) : string := string_of_list_ascii l.

Definition toLowerCase (s : string) : string :=
  text (map Chars.lower (chars s)).

Fixpoint dropWhile {A} (p : A -> bool) (l : list A) : list A :=
  match l with
  | [] => []
  | x :: l' => if p x then dropWhile p l' else l
  end.

Definition trim (s : string) : string :=
  text (rev (dropWhile Chars.is_space (rev (dropWhile Chars.is_space (chars s))))).

(** [a] is a prefix of [l], compared with [eqc]. *)
Fixpoint prefix_by (eqc : ascii -> ascii -> bool) (a l : list ascii) : bool :=
  match a, l with
  | [], _ => true
  | x :: a', y :: l' => eqc x y && prefix_by eqc a' l'
  | _ :: _, [] => false
  end.

(** [p] occurs in [l] at index [i]. *)
Definition occurs_at (eqc : ascii -> ascii -> bool) (p l : list ascii) (i : nat) : bool :=
  (i <=? List.length l)%nat && prefix_by eqc p (skipn i l).

Definition positions (l : list ascii) : list nat := seq 0 (S (List.length l)).

(** [String.prototype.includes]. *)
Definition includes (s sub : string) : bool :=
  existsb (occurs_at Ascii.eqb (chars sub) (chars s)) (positions (chars s)).

(** [Array.prototype.join] on strings. *)
Fixpoint join (sep : string) (l : list string) : string :=
  match l with
  | [] => ""
  | [x] => x
  | x :: l' => x ++ sep ++ join sep l'
  end.

(* ================================================================== *)
(** ** Regular expressions

    The fragment of the RegExp language that the source uses: literals,
    classes, [.] and its star, bounded repetition of a class, sequence,
    alternation, the assertions [^], [$] and [\b].  [ends] lists the
    positions at which a match starting at [i] can end, so [test] holds
    exactly when the backtracking matcher finds a match. *)

Module Regex.

Inductive cset : Type :=
| CChr (c : ascii)
| CRng (lo hi : ascii)
| CDot
| COr (a b : cset).

Inductive regex : Type :=
| Eps
| One (c : cset)
| Star (c : cset)
| Rep (n : nat) (c : cset)
| Str (s : string)
| Seq (r1 r2 : regex)
| Alt (r1 r2 : regex)
| Bol
| Eol
| WordB.

(** Character comparison; [ic] is the [i] flag. *)
Definition char_eq (ic : bool) (a b : ascii) : bool :=
  if ic then Ascii.eqb (Chars.upper a) (Chars.upper b) else Ascii.eqb a b.

Definition in_range (lo hi x : ascii) : bool :=
  Chars.between (Chars.code lo) (Chars.code hi) x.

Fixpoint cmatch (ic : bool) (c : cset) (x : ascii) : bool :=
  match c with
  | CChr a => char_eq ic a x
  | CRng lo hi =>
      in_range lo hi x ||
      (ic && (in_range lo hi (Chars.lower x) || in_range lo hi (Chars.upper x)))
  | CDot => negb (Chars.is_newline x)
  | COr a b => cmatch ic a x || cmatch ic b x
  end.

(** Is there a word character at index [i]?  Outside the string: no. *)
Definition word_at (l : list ascii) (i : nat) : bool :=
  match nth_error l i with
  | Some c => Chars.is_word c
  | None => false
  end.

(** [\b] at position [i]: exactly one side is a word character. *)
Definition boundary (l : list ascii) (i : nat) : bool :=
  xorb (match i with O => false | S j => word_at l j end) (word_at l i).

(** Lengths of the prefixes of [l] whose characters all match [c]. *)
Fixpoint runs (ic : bool) (c : cset) (l : list ascii) : list nat :=
  match l with
  | [] => [O]
  | x :: l' => O :: (if cmatch ic c x then map S (runs ic c l') else [])
  end.

Fixpoint all_match (ic : bool) (c : cset) (n : nat) (l : list ascii) : bool :=
  match n, l with
  | O, _ => true
  | S n', x :: l' => cmatch ic c x && all_match ic c n' l'
  | S _, [] => false
  end.

Fixpoint ends (ic : bool) (r : regex) (l : list ascii) (i : nat) : list nat :=
  match r with
  | Eps => [i]
  | One c =>
      match nth_error l i with
      | Some x => if cmatch ic c x then [S i] else []
      | None => []
      end
  | Star c => map (fun k => i + k)%nat (runs ic c (skipn i l))
  | Rep n c => if all_match ic c n (skipn i l) then [(i + n)%nat] else []
  | Str s =>
      if occurs_at (char_eq ic) (chars s) l i then [(i + String.length s)%nat] else []
  | Seq r1 r2 => flat_map (ends ic r2 l) (ends ic r1 l i)
  | Alt r1 r2 => ends ic r1 l i ++ ends ic r2 l i
  | Bol => if (i =? 0)%nat then [i] else []
  | Eol => if (i =? List.length l)%nat then [i] else []
  | WordB => if boundary l i then [i] else []
  end.

Definition matches_at (ic : bool) (r : regex) (l : list ascii) (i : nat) : bool :=
  match ends ic r l i with [] => false | _ :: _ => true end.

(** [RegExp.prototype.test] for a regex without the [g] and [y] flags. *)
Definition test (ic : bool) (r : regex) (s : string) : bool :=
  existsb (matches_at ic r (chars s)) (positions (chars s)).

Fixpoint alts (l : list regex) : regex :=
  match l with
  | [] => Eps
  | [r] => r
  | r :: l' => Alt r (alts l')
  end.

Fixpoint seqs (l : list regex) : regex :=
  match l with
  | [] => Eps
  | [r] => r
  | r :: l' => Seq r (seqs l')
  end.

End Regex.
Import Regex.

(* ================================================================== *)
(** ** rag_chat/index.ts: validation and question classifiers *)

Definition hex : cset := COr (CRng "0" "9") (CRng "a" "f").

(** [/^[0-9a-f]{8}-[0-9a-f]{4}-[1-5][0-9a-f]{3}-[89ab][0-9a-f]{3}-[0-9a-f]{12}$/i] *)
Definition UUID_REGEX : regex :=
  seqs [ Bol; Rep 8 hex; Str "-"; Rep 4 hex; Str "-";
         One (CRng "1" "5"); Rep 3 hex; Str "-";
         One (COr (CChr "8") (COr (CChr "9") (COr (CChr "a") (CChr "b"))));
         Rep 3 hex; Str "-"; Rep 12 hex; Eol ].

Definition isValidUuid (value : string) : bool := test true UUID_REGEX value.

(** [/\b(this week|today|right now|currently|current|now|tonight|tomorrow|yesterday)\b/i] *)
Definition recency_markers : list string :=
  [ "this week"; "today"; "right now"; "currently"; "current"; "now";
    "tonight"; "tomorrow"; "yesterday" ].

Definition isTimeSensitive (question : string) : bool :=
  test true (seqs [ WordB; alts (map Str recency_markers); WordB ]) question.

Definition backslash : ascii := ascii_of_nat 92.

(** The characters that [escapeRegex] quotes: the twelve of the string below,
    the closing bracket and the backslash. *)
Definition special (c : ascii) : bool :=
  existsb (Ascii.eqb c) (chars ".*+?^${}()|[" ++ ["]"%char; backslash]).

(** [escapeRegex]: a backslash is put before every special character. *)
Definition escapeRegex (s : string) : string :=
  text (flat_map (fun c => if special c then [backslash; c] else [c]) (chars s)).

(** The source of a pattern in which no special character stands unquoted
    is read as the sequence of its characters, a backslash quoting the
    character after it. *)
Fixpoint quoted (p : list ascii) : list ascii :=
  match p with
  | [] => []
  | c :: p' =>
      if Ascii.eqb c backslash
      then match p' with
           | d :: p'' => d :: quoted p''
           | [] => [c]
           end
      else c :: quoted p'
  end.

Definition literal (pattern : string) : regex := Str (text (quoted (chars pattern))).

(** [hasWholePhrase]: the pattern is the start or a word boundary, then
    [p = escapeRegex(phrase.toLowerCase())], then a word boundary or the end;
    the flag is [i]. *)
Definition hasWholePhrase (q phrase : string) : bool :=
  let p := escapeRegex (toLowerCase phrase) in
  test true (seqs [ Alt Bol WordB; literal p; Alt WordB Eol ]) q.

Definition hasAnyWholePhrase (q : string) (phrases : list string) : bool :=
  existsb (fun p => hasWholePhrase q p) phrases.

(* ================================================================== *)
(** ** Numbers *)

(** A JavaScript number.  A finite double is the rational it denotes. *)
Inductive number : Type :=
| Num (q : Q)
| NaN
| Inf (negative : bool).

Module Number.

(** [Number.isFinite] *)
Definition isFinite (x : number) : bool :=
  match x with Num _ => true | _ => false end.

(** [a < b]; every comparison with NaN is false. *)
Definition lt (a b : number) : bool :=
  match a, b with
  | NaN, _ | _, NaN => false
  | Num x, Num y => negb (Qle_bool y x)
  | Num _, Inf neg => negb neg
  | Inf neg, Num _ => neg
  | Inf n1, Inf n2 => n1 && negb n2
  end.

(** [a >= b] *)
Definition ge (a b : number) : bool :=
  match a, b with
  | NaN, _ | _, NaN => false
  | Num x, Num y => Qle_bool y x
  | Num _, Inf neg => neg
  | Inf neg, Num _ => negb neg
  | Inf n1, Inf n2 => negb n1 || n2
  end.

(** [a > b] *)
Definition gt (a b : number) : bool := lt b a.

(** [a - b]; the difference of two finite doubles has the sign of the exact
    difference, which is all the callers look at. *)
Definition sub (a b : number) : number :=
  match a, b with
  | NaN, _ | _, NaN => NaN
  | Num x, Num y => Num (Qred (x - y))
  | Num _, Inf neg => Inf (negb neg)
  | Inf neg, Num _ => Inf neg
  | Inf n1, Inf n2 => if Bool.eqb n1 n2 then NaN else Inf n1
  end.

Definition of_Z (z : Z) : number := Num (inject_Z z).

End Number.

(** [String(z)] for an integer. *)
Definition string_of_Z (z : Z) : string := NilZero.string_of_int (Z.to_int z).

(* ================================================================== *)
(** ** rag_chat/index.ts: records *)

Module MuseumRow.
Record t : Type := mk {
  id : string;
  name : option string;
  address : option string;
  city : option string;
  state : option string;
  postal_code : option string;
  country : option string;
  website : option string;
  phone : option string;
  director : option string;
  founded_year : option Z;   (* column [founded_year int] of migration 004 *)
  former_name : option string;
  mission : option string
}.
End MuseumRow.

Module Source.
Record t : Type := mk {
  id : string;
  source_url : option string;
  similarity : number
}.
End Source.

(** The body [{ answer, sources }] of a success or refusal response. *)
Record Answer : Type := mkAnswer {
  answer : string;
  sources : list Source.t
}.

(** Truthiness of a [string | null] field: the value when it is neither
    null nor empty. *)
Definition truthy (x : option string) : option string :=
  match x with
  | Some s => if (s =? "")%string then None else Some s
  | None => None
  end.

(** Truthiness of a [number | null] integer field: null and 0 are falsy. *)
Definition truthyZ (x : option Z) : option Z :=
  match x with
  | Some z => if (z =? 0)%Z then None else Some z
  | None => None
  end.

(** [xs.filter(Boolean)] on [string | null] entries. *)
Fixpoint filterBoolean (xs : list (option string)) : list string :=
  match xs with
  | [] => []
  | x :: xs' =>
      match truthy x with
      | Some s => s :: filterBoolean xs'
      | None => filterBoolean xs'
      end
  end.

Definition makeProfileSource (museum : MuseumRow.t) : Source.t :=
  {| Source.id := "museum_profile:" ++ MuseumRow.id museum;
     Source.source_url := MuseumRow.website museum;
     Source.similarity := Num 1 |}.

Definition dotStar (a : string) (b : regex) : regex :=
  seqs [ Str a; Star CDot; b ].

(** ** rag_chat/index.ts: [tryAnswerFromMuseumProfile] *)

Definition tryAnswerFromMuseumProfile
  (questionRaw : string) (museum : option MuseumRow.t) : option Answer :=
  match museum with
  | None => None
  | Some museum =>
    let q := toLowerCase questionRaw in
    let locationParts :=
      filterBoolean [ MuseumRow.address museum; MuseumRow.city museum;
                      MuseumRow.state museum; MuseumRow.postal_code museum;
                      MuseumRow.country museum ] in
    let location := join ", " locationParts in
    (* Director / CEO / leadership *)
    if hasAnyWholePhrase q ["director"; "ceo"; "leadership"]
       || includes q "executive director"
       || includes q "museum director"
    then
      match truthy (MuseumRow.director museum) with
      | Some director =>
          Some {| answer := "The museum’s director is " ++ director ++ ".";
                  sources := [makeProfileSource museum] |}
      | None =>
          Some {| answer := "That isn’t available in the provided sources right now. Please check the museum’s official website for the latest leadership details.";
                  sources := [] |}
      end
    (* Mission *)
    else if hasAnyWholePhrase q ["mission"; "purpose"; "goal"]
    then
      match truthy (MuseumRow.mission museum) with
      | Some mission =>
          Some {| answer := "Mission: " ++ mission;
                  sources := [makeProfileSource museum] |}
      | None =>
          Some {| answer := "That isn’t available in the provided sources right now. Please check the museum’s official website for the mission statement.";
                  sources := [] |}
      end
    (* Founded year / when founded *)
    else if hasAnyWholePhrase q ["founded"; "established"]
            || test true (dotStar "when was" (Alt (Str "founded") (Str "established"))) q
            || test true (dotStar "when did" (Str "open")) q
            || hasWholePhrase q "built"
    then
      match truthyZ (MuseumRow.founded_year museum) with
      | Some founded_year =>
          Some {| answer := "The museum was founded in " ++ string_of_Z founded_year ++ ".";
                  sources := [makeProfileSource museum] |}
      | None =>
          Some {| answer := "That isn’t available in the provided sources right now. Please check the museum’s official website for its history.";
                  sources := [] |}
      end
    (* Former name / renamed *)
    else if includes q "formerly"
            || includes q "former name"
            || includes q "used to be called"
            || includes q "old name"
            || includes q "renamed"
            || includes q "name change"
    then
      match truthy (MuseumRow.former_name museum) with
      | Some former_name =>
          Some {| answer := "It was formerly known as " ++ former_name ++ ".";
                  sources := [makeProfileSource museum] |}
      | None =>
          Some {| answer := "That isn’t available in the provided sources right now. Please check the museum’s official website for details about the name change.";
                  sources := [] |}
      end
    (* Address / location *)
    else if hasAnyWholePhrase q ["address"; "location"]
            || test true (dotStar "where" (Str "located")) q
            || includes q "where is it"
            || includes q "how do i get there"
    then
      if (location =? "")%string
      then
        Some {| answer := "That isn’t available in the provided sources right now. Please check the museum’s official website for location details.";
                sources := [] |}
      else
        Some {| answer := "The museum is located at " ++ location ++ ".";
                sources := [makeProfileSource museum] |}
    (* Website *)
    else if hasAnyWholePhrase q ["website"; "official site"; "url"]
    then
      match truthy (MuseumRow.website museum) with
      | Some website =>
          Some {| answer := "The official website is " ++ website ++ ".";
                  sources := [makeProfileSource museum] |}
      | None =>
          Some {| answer := "That isn’t available in the provided sources right now. Please check the museum’s official website.";
                  sources := [] |}
      end
    (* Phone *)
    else if hasAnyWholePhrase q ["phone"; "telephone"; "contact number"]
            || hasWholePhrase q "call"
    then
      match truthy (MuseumRow.phone museum) with
      | Some phone =>
          Some {| answer := "You can reach the museum at " ++ phone ++ ".";
                  sources := [makeProfileSource museum] |}
      | None =>
          Some {| answer := "That isn’t available in the provided sources right now. Please check the museum’s official website.";
                  sources := [] |}
      end
    (* Museum name *)
    else if hasAnyWholePhrase q ["name of the museum"; "full name"]
            || test true (dotStar "what" (Str "name")) q
    then
      match truthy (MuseumRow.name museum) with
      | Some name =>
          Some {| answer := "The museum is called " ++ name ++ ".";
                  sources := [makeProfileSource museum] |}
      | None =>
          Some {| answer := "That isn’t available in the provided sources right now. Please check the museum’s official website.";
                  sources := [] |}
      end
    else None
  end.

Definition akg : MuseumRow.t :=
  {| MuseumRow.id := "f817a6f8-8f99-4618-86a2-603d0b323eff";
     MuseumRow.name := Some "Buffalo AKG Art Museum";
     MuseumRow.address := None;
     MuseumRow.city := Some "Buffalo";
     MuseumRow.state := Some "NY";
     MuseumRow.postal_code := None;
     MuseumRow.country := None;
     MuseumRow.website := Some "https://www.buffaloakg.org";
     MuseumRow.phone := None;
     MuseumRow.director := None;
     MuseumRow.founded_year := Some 1862%Z;
     MuseumRow.former_name := Some "Albright-Knox Art Gallery";
     MuseumRow.mission := None |}.

(* ================================================================== *)
(** ** Number parsing and number helpers *)

Module Parse.

(** Round a positive rational [n/d] to the nearest binary64 value, ties to
    even; [None] when the result overflows to Infinity. *)
Definition round_pos (n d : Z) : option Q :=
  let e0 := (Z.log2 n - Z.log2 d)%Z in
  let below :=
    (if 0 <=? e0 then n <? d * 2 ^ e0 else n * 2 ^ (- e0) <? d)%Z in
  let e := (if below then e0 - 1 else e0)%Z in
  let u := Z.max (e - 52) (-1074) in
  let num := (if u <? 0 then n * 2 ^ (- u) else n)%Z in
  let den := (if u <? 0 then d else d * 2 ^ u)%Z in
  let m0 := (num / den)%Z in
  let r := (num mod den)%Z in
  let up := ((den <? 2 * r) || ((den =? 2 * r) && Z.odd m0))%Z in
  let m := (if up then m0 + 1 else m0)%Z in
  if (2 ^ 53 * 2 ^ 971 <=? m * 2 ^ u)%Z && (0 <=? u)%Z then None
  else Some (Qred (if u <? 0 then Qmake m (Z.to_pos (2 ^ (- u))) else inject_Z (m * 2 ^ u)))%Z.

(** The double nearest to [(-1)^neg * m * 10^e]. *)
Definition decimal (neg : bool) (m : Z) (e : Z) : number :=
  if (m <=? 0)%Z then Num 0
  else
    let n := (if 0 <=? e then m * 10 ^ e else m)%Z in
    let d := (if 0 <=? e then 1 else 10 ^ (- e))%Z in
    match round_pos n d with
    | Some q => Num (if neg then Qred (- q) else q)
    | None => Inf neg
    end.

Definition digit (c : ascii) : Z := Z.of_nat (Chars.code c - 48).

(** Leading decimal digits of [l], accumulated onto [acc]: the value, the
    number of digits read, and the rest. *)
Fixpoint digits (acc : Z) (count : nat) (l : list ascii) : Z * nat * list ascii :=
  match l with
  | c :: l' =>
      if Chars.is_digit c then digits (acc * 10 + digit c)%Z (S count) l'
      else (acc, count, l)
  | [] => (acc, count, l)
  end.

Definition sign (l : list ascii) : bool * list ascii :=
  match l with
  | "-"%char :: l' => (true, l')
  | "+"%char :: l' => (false, l')
  | _ => (false, l)
  end.

(** The exponent part [[eE][+-]?digits] when it is complete, else 0. *)
Definition exponent (l : list ascii) : Z :=
  match l with
  | c :: l' =>
      if Ascii.eqb c "e" || Ascii.eqb c "E" then
        let (neg, l'') := sign l' in
        let '(v, k, _) := digits 0 0 l'' in
        match k with O => 0 | S _ => if neg then (- v) else v end
      else 0
  | [] => 0
  end%Z.

(** [parseFloat]: the longest prefix of the trimmed string that is a
    decimal literal, or NaN when there is none. *)
Definition parseFloat (s : string) : number :=
  let l := dropWhile Chars.is_space (chars s) in
  let (neg, l1) := sign l in
  if prefix_by Ascii.eqb (chars "Infinity") l1 then Inf neg
  else
    let '(ip, ni, l2) := digits 0 0 l1 in
    let '(m, nf, l3) :=
      match l2 with
      | "."%char :: l2' =>
          let '(m', nf', l3') := digits ip 0 l2' in
          match ni, nf' with
          | O, O => (ip, O, l2)
          | _, _ => (m', nf', l3')
          end
      | _ => (ip, O, l2)
      end in
    match ni, nf with
    | O, O => NaN
    | _, _ => decimal neg m (exponent l3 - Z.of_nat nf)
    end.

End Parse.

Module Num.

(** [Math.min] and [Math.max] of two numbers. *)
Definition min (a b : number) : number :=
  match a, b with
  | NaN, _ | _, NaN => NaN
  | _, _ => if Number.lt b a then b else a
  end.

Definition max (a b : number) : number :=
  match a, b with
  | NaN, _ | _, NaN => NaN
  | _, _ => if Number.lt a b then b else a
  end.

(** [a + b]; the callers add small integers, where the sum is exact. *)
Definition add (a b : number) : number :=
  match a, b with
  | NaN, _ | _, NaN => NaN
  | Num x, Num y => Num (Qred (x + y))
  | Num _, Inf neg => Inf neg
  | Inf neg, Num _ => Inf neg
  | Inf n1, Inf n2 => if Bool.eqb n1 n2 then Inf n1 else NaN
  end.

(** Truncation toward zero of a rational. *)
Definition trunc (q : Q) : Z :=
  if (Qnum q <? 0)%Z then Qceiling q else Qfloor q.

End Num.

(** [l.slice(0, e)] *)
Definition slice0 {A} (l : list A) (e : number) : list A :=
  match e with
  | NaN => []
  | Inf neg => if neg then [] else l
  | Num q =>
      let z := Num.trunc q in
      if (z <? 0)%Z then firstn (Z.to_nat (Z.max (Z.of_nat (List.length l) + z) 0)) l
      else firstn (Z.to_nat z) l
  end.

(* ================================================================== *)
(** ** A JavaScript [Map] with string keys: insertion-ordered entries *)

Module JsMap.
Section WithValue.
Variable V : Type.

Definition t : Type := list (string * V).

Definition empty : t := [].

Fixpoint get (m : t) (k : string) : option V :=
  match m with
  | [] => None
  | (k', v) :: m' => if (k' =? k)%string then Some v else get m' k
  end.

(** [set] replaces the value of a present key where it stands and puts a
    new key last. *)
Fixpoint set (m : t) (k : string) (v : V) : t :=
  match m with
  | [] => [(k, v)]
  | (k', v') :: m' =>
      if (k' =? k)%string then (k, v) :: m' else (k', v') :: set m' k v
  end.

Definition values (m : t) : list V := map snd m.


(** [new Map(entries)] *)
Definition of_entries (l : list (string * V)) : t :=
  fold_left (fun m kv => set m (fst kv) (snd kv)) l empty.

End WithValue.
End JsMap.

(* ================================================================== *)
(** ** rag_chat/index.ts: the handler *)

Definition MIN_SIMILARITY : number := Parse.decimal false 45 (-2).
Definition MAX_MATCH_COUNT : number := Num 10.

(** [number | string], the type of [MatchRow.similarity]. *)
Inductive numstr : Type :=
| OfNumber (n : number)
| OfString (s : string).

Definition toNumber (x : numstr) : option number :=
  match x with
  | OfNumber n => if Number.isFinite n then Some n else None
  | OfString s =>
      let n := Parse.parseFloat s in
      if Number.isFinite n then Some n else None
  end.

Module MatchRow.
(** [S] is the type of the similarity: [number | string] as the rows
    arrive, [number | null] after the map, [number] after the guard. *)
Record t (S : Type) : Type := mk {
  id : string;
  chunk_text : string;
  similarity : S
}.
Arguments mk {S} _ _ _.
Arguments id {S} _.
Arguments chunk_text {S} _.
Arguments similarity {S} _.

(** [{ ...r, similarity: v }] *)
Definition with_similarity {S T} (r : t S) (v : T) : t T :=
  mk (id r) (chunk_text r) v.
End MatchRow.

(** [xs.filter(guard)] for a type guard: the elements that pass, at the
    narrowed type. *)
Fixpoint filterGuard {A B} (guard : A -> option B) (xs : list A) : list B :=
  match xs with
  | [] => []
  | x :: xs' =>
      match guard x with
      | Some y => y :: filterGuard guard xs'
      | None => filterGuard guard xs'
      end
  end.

(** The guard [typeof r.similarity === "number"]. *)
Definition isNumberRow (r : MatchRow.t (option number)) : option (MatchRow.t number) :=
  match MatchRow.similarity r with
  | Some n => Some (MatchRow.with_similarity r n)
  | None => None
  end.

Definition normalize (rows : list (MatchRow.t numstr)) : list (MatchRow.t number) :=
  filterGuard isNumberRow
    (map (fun r => MatchRow.with_similarity r (toNumber (MatchRow.similarity r))) rows).

Definition strongMatches (normalized : list (MatchRow.t number)) (requestedMatchCount : number)
  : list (MatchRow.t number) :=
  slice0 (filter (fun r => Number.ge (MatchRow.similarity r) MIN_SIMILARITY) normalized)
         requestedMatchCount.

(** *** Requests, responses, upstream services *)

Inductive method : Type :=
| OPTIONS
| POST
| OtherMethod (name : string).

Record RagRequest : Type := mkRagRequest {
  museum_id : option string;
  question : option string;
  match_count : option number   (* [None]: absent or not of type number *)
}.

Record Request : Type := mkRequest {
  req_method : method;
  req_json : string + RagRequest  (* [inl msg]: [req.json()] rejects with [Error(msg)] *)
}.

Inductive Body : Type :=
| Plain (s : string)
| ErrorBody (error : string) (detail : option string)
| AnswerBody (a : Answer).

Record Response : Type := mkResponse {
  status : nat;
  body : Body
}.

(** The outcome [{ data, error }] of a storage call. *)
Record PgResult (A : Type) : Type := mkPg {
  data : option A;
  error : option string
}.
Arguments mkPg {A} _ _.
Arguments data {A} _.
Arguments error {A} _.

Definition vector : Type := list number.

(** The environment of one request: the two secrets and the services the
    handler calls.  A [string + A] result is [inl msg] when the call throws
    [Error(msg)]. *)
Record Upstream : Type := mkUpstream {
  SERVICE_ROLE_KEY : string;
  OPENAI_API_KEY : string;
  (** [JSON.parse(atob(jwt.split(".")[1]))?.ref] when it can be computed
      and is truthy *)
  jwt_ref : string -> option string;
  (** [from("museums").select(..).eq("id", id).single()]; [None]: it throws *)
  museums_single : string -> option (PgResult MuseumRow.t);
  (** the embeddings endpoint, as [getEmbedding] sees it *)
  getEmbedding : string -> string + option vector;
  (** [rpc("match_content_chunks", { query_embedding, match_count, museum_id })] *)
  match_content_chunks :
    option vector -> number -> string -> PgResult (list (MatchRow.t numstr));
  (** [from("content_chunks").select("id, source_url").in("id", ids)] *)
  content_chunks_in : list string -> PgResult (list (string * option string));
  (** the chat completions endpoint, as [chatCompletion] sees it *)
  chatCompletion : string -> string + string
}.

(** One call to an upstream service. *)
Inductive call : Type :=
| TenantLookup (museumId : string)
| Embedding (input : string)
| VectorSearch (query_embedding : option vector) (match_count : number) (museum_id : string)
| SourceLookup (ids : list string)
| ChatCompletion (prompt : string).

Definition is_llm_call (c : call) : bool :=
  match c with ChatCompletion _ => true | _ => false end.

(** *** The monad of the handler body: a trace of upstream calls and either
    a thrown message or a value *)

Module Run.

Definition M (A : Type) : Type := list call * (string + A).

Definition ret {A} (a : A) : M A := ([], inr a).

Definition throw {A} (msg : string) : M A := ([], inl msg).

Definition bind {A B} (m : M A) (k : A -> M B) : M B :=
  match m with
  | (t, inl msg) => (t, inl msg)
  | (t, inr a) => let (t', r) := k a in (t ++ t', r)
  end.

(** An awaited upstream call whose promise resolves with [r]. *)
Definition await {A} (c : call) (r : A) : M A := ([c], inr r).

(** An awaited upstream call that may throw. *)
Definition await_or_throw {A} (c : call) (r : string + A) : M A := ([c], r).

End Run.

Declare Scope run_scope.
Delimit Scope run_scope with run.
Notation "x <- m ;; k" := (Run.bind m (fun x => k))
  (at level 61, m at next level, right associativity) : run_scope.

Definition newline : string := String (ascii_of_nat 10) "".

Definition json (status : nat) (b : Body) : Response :=
  {| status := status; body := b |}.

Definition getSupabaseUrlFromJwt (up : Upstream) (jwt : string) : Run.M string :=
  match jwt_ref up jwt with
  | Some ref => Run.ret ("https://" ++ ref ++ ".supabase.co")%string
  | None => Run.throw "Could not derive SUPABASE_URL from SERVICE_ROLE_KEY"
  end.

(** What [tryGetMuseumRow] returns: the row, or null when the query
    reports an error, has no data, or throws. *)
Definition museumRowOf (up : Upstream) (museumId : string) : option MuseumRow.t :=
  match museums_single up museumId with
  | Some r =>
      match error r, data r with
      | None, Some row => Some row
      | _, _ => None
      end
  | None => None
  end.

Definition tryGetMuseumRow (up : Upstream) (museumId : string) : Run.M (option MuseumRow.t) :=
  Run.await (TenantLookup museumId) (museumRowOf up museumId).

Definition requestedMatchCountOf (b : RagRequest) : number :=
  match match_count b with
  | Some n => if Number.gt n (Num 0) then Num.min n MAX_MATCH_COUNT else Num 5
  | None => Num 5
  end.

Definition TIME_SENSITIVE_REFUSAL : string :=
  "That changes frequently and isn’t available in the provided sources right now. Please check the museum’s official website for the latest details.".

Definition GENERIC_REFUSAL : string :=
  "That isn’t available in the provided sources right now. Please check the museum’s official website.".

(** [strong.map((r, i) => `(${i + 1}) ${r.chunk_text}`)], from index [i]. *)
Fixpoint numbered (i : nat) (strong : list (MatchRow.t number)) : list string :=
  match strong with
  | [] => []
  | r :: rest =>
      ("(" ++ string_of_Z (Z.of_nat (i + 1)) ++ ") " ++ MatchRow.chunk_text r)%string
      :: numbered (S i) rest
  end.

Definition citation (srcMap : JsMap.t (option string)) (r : MatchRow.t number) : Source.t :=
  {| Source.id := MatchRow.id r;
     Source.source_url :=
       match JsMap.get srcMap (MatchRow.id r) with
       | Some url => url
       | None => None
       end;
     Source.similarity := MatchRow.similarity r |}.

Local Open Scope run_scope.

(** Steps 3 and 4 of the [try] block: gate the rows the vector search
    returned, refuse or compose. *)
Definition gateAndCompose (up : Upstream) (question : string)
  (requestedMatchCount : number) (rows : list (MatchRow.t numstr)) : Run.M Response :=
  let normalized := normalize rows in
  let strong := strongMatches normalized requestedMatchCount in
  if isTimeSensitive question && (List.length strong =? 0)%nat
  then Run.ret (json 200 (AnswerBody {| answer := TIME_SENSITIVE_REFUSAL; sources := [] |}))
  else if (List.length strong =? 0)%nat
  then Run.ret (json 200 (AnswerBody {| answer := GENERIC_REFUSAL; sources := [] |}))
  else
    let context := join (newline ++ newline)%string (numbered 0 strong) in
    let ids := map MatchRow.id strong in
    srcs <- Run.await (SourceLookup ids) (content_chunks_in up ids) ;;
    let srcMap :=
      JsMap.of_entries (match data srcs with Some l => l | None => [] end) in
    let prompt :=
      join newline [ ("Context:" ++ newline ++ context)%string;
                     (newline ++ "Question: " ++ question)%string;
                     (newline ++ "Answer:")%string ] in
    answer <- Run.await_or_throw (ChatCompletion prompt) (chatCompletion up prompt) ;;
    Run.ret (json 200 (AnswerBody {| answer := answer;
                                     sources := map (citation srcMap) strong |})).

(** Steps 1 and 2 of the [try] block: embed the question, search. *)
Definition retrieve (up : Upstream) (question museumId : string)
  (requestedMatchCount rpcMatchCount : number) : Run.M Response :=
  qEmbedding <- Run.await_or_throw (Embedding question) (getEmbedding up question) ;;
  res <- Run.await (VectorSearch qEmbedding rpcMatchCount museumId)
           (match_content_chunks up qEmbedding rpcMatchCount museumId) ;;
  match error res with
  | Some message => Run.throw ("match_content_chunks failed: " ++ message)%string
  | None =>
      gateAndCompose up question requestedMatchCount
        (match data res with Some rows => rows | None => [] end)
  end.

Definition questionOf (b : RagRequest) : string :=
  match question b with Some s => trim s | None => "" end.

Definition rpcMatchCountOf (requestedMatchCount : number) : number :=
  Num.min (Num.add (Num.max requestedMatchCount (Num 5)) (Num 5)) MAX_MATCH_COUNT.

(** The body of the [try] block, once [req.json()] has produced [b]:
    validation, step 0 (the museum profile), then retrieval. *)
Definition answerQuestion (up : Upstream) (b : RagRequest) : Run.M Response :=
  let museumId := museum_id b in
  let question := questionOf b in
  let requestedMatchCount := requestedMatchCountOf b in
  let rpcMatchCount := rpcMatchCountOf requestedMatchCount in
  match truthy museumId with
  | None => Run.ret (json 400 (ErrorBody "Invalid or missing museum_id" None))
  | Some museumId =>
    if negb (isValidUuid museumId)
    then Run.ret (json 400 (ErrorBody "Invalid or missing museum_id" None))
    else if (question =? "")%string
    then Run.ret (json 400 (ErrorBody "Missing question" None))
    else
      _ <- getSupabaseUrlFromJwt up (SERVICE_ROLE_KEY up) ;;
      museumRow <- tryGetMuseumRow up museumId ;;
      match tryAnswerFromMuseumProfile question museumRow with
      | Some profileAnswer => Run.ret (json 200 (AnswerBody profileAnswer))
      | None => retrieve up question museumId requestedMatchCount rpcMatchCount
      end
  end.

(** The [try] block. *)
Definition tryBlock (up : Upstream) (req : Request) : Run.M Response :=
  if (SERVICE_ROLE_KEY up =? "")%string || (OPENAI_API_KEY up =? "")%string
  then Run.ret (json 500 (ErrorBody "Server configuration error" None))
  else
    match req_json req with
    | inl msg => Run.throw msg
    | inr b => answerQuestion up b
    end.

(** [handler]: the response and the upstream calls made, in order. *)
Definition handler (up : Upstream) (req : Request) : Response * list call :=
  match req_method req with
  | OPTIONS => (json 200 (Plain "ok"), [])
  | OtherMethod _ => (json 405 (ErrorBody "Method not allowed" None), [])
  | POST =>
      match tryBlock up req with
      | (t, inr response) => (response, t)
      | (t, inl msg) => (json 500 (ErrorBody "Internal server error" (Some msg)), t)
      end
  end.

Local Close Scope run_scope.

(* ================================================================== *)
(** ** Stable sorting

    [sort after l] is the stable insertion sort of [l], where [after x y]
    says that [x] has to come after [y].  It stands for
    [Array.prototype.sort] (stable; [after a b] is [comparefn(a, b) > 0])
    and for [ORDER BY]. *)

Section Sort.
Variable A : Type.
Variable after : A -> A -> bool.

Fixpoint insert (x : A) (l : list A) : list A :=
  match l with
  | [] => [x]
  | y :: l' => if after x y then y :: insert x l' else x :: l
  end.

Definition sort (l : list A) : list A := fold_right insert [] l.

End Sort.

(* ================================================================== *)
(** ** Migration 003: [public.match_chunks] *)

Module Sql.

(** A row of [content_chunks] (columns the function reads or returns). *)
Record content_chunk : Type := mkChunk {
  id : string;                 (* uuid, primary key *)
  museum_id : string;          (* uuid, not null *)
  chunk_text : string;
  source_url : option string;
  metadata : string;           (* jsonb *)
  embedding : option vector
}.

(** A row of the table the function returns. *)
Record match_row : Type := mkMatch {
  m_id : string;
  m_chunk_text : string;
  m_source_url : option string;
  m_metadata : string;
  m_similarity : number
}.

(** Ascending order of [float8]: NaN sorts after every other value. *)
Definition float8_after (a b : number) : bool :=
  match a, b with
  | NaN, NaN => false
  | NaN, _ => true
  | _, NaN => false
  | _, _ => Number.gt a b
  end.

Section MatchChunks.

(** The distance operator [<->] of pgvector. *)
Variable distance : vector -> vector -> number.

Definition dist (q : vector) (c : content_chunk) : number :=
  match embedding c with
  | Some e => distance e q
  | None => NaN
  end.

Definition selected (q : vector) (c : content_chunk) : match_row :=
  {| m_id := id c;
     m_chunk_text := chunk_text c;
     m_source_url := source_url c;
     m_metadata := metadata c;
     m_similarity := Number.sub (Num 1) (dist q c) |}.

Definition where_clause (p_museum_id : string) (c : content_chunk) : bool :=
  (museum_id c =? p_museum_id)%string
  && match embedding c with Some _ => true | None => false end.

(** [match_chunks(p_museum_id, p_query_embedding, p_match_count)] over the
    table [content_chunks]; a negative [LIMIT] is an error. *)
Definition match_chunks (content_chunks : list content_chunk)
  (p_museum_id : string) (p_query_embedding : vector) (p_match_count : Z)
  : string + list match_row :=
  if (p_match_count <? 0)%Z then inl "LIMIT must not be negative"
  else
    inr (map (selected p_query_embedding)
           (firstn (Z.to_nat p_match_count)
              (sort (fun a b => float8_after (dist p_query_embedding a)
                                             (dist p_query_embedding b))
                 (filter (where_clause p_museum_id) content_chunks)))).

End MatchChunks.
End Sql.

(* ================================================================== *)
(** ** frontend: [CitationList] *)

Module CitationList.

Definition key (s : Source.t) : string :=
  match Source.source_url s with
  | Some url => url
  | None => "no_url:" ++ Source.id s
  end.

(** The reducer: keep [s] when its key is new or its similarity is higher
    than the one kept. *)
Definition step (map : JsMap.t Source.t) (s : Source.t) : JsMap.t Source.t :=
  match JsMap.get map (key s) with
  | Some existing =>
      if Number.gt (Source.similarity s) (Source.similarity existing)
      then JsMap.set map (key s) s
      else map
  | None => JsMap.set map (key s) s
  end.

Definition grouped (sources : list Source.t) : JsMap.t Source.t :=
  fold_left step sources (@JsMap.empty Source.t).

(** [(a, b) => b.similarity - a.similarity], as [sort] reads it. *)
Definition comparefn (a b : Source.t) : number :=
  Number.sub (Source.similarity b) (Source.similarity a).

Definition bySimilarityDesc (a b : Source.t) : bool :=
  Number.gt (comparefn a b) (Num 0).

Definition deduped (sources : list Source.t) : list Source.t :=
  firstn 1 (sort bySimilarityDesc (JsMap.values (grouped sources))).

(** What the component shows: nothing for an empty list. *)
Definition CitationList (sources : list Source.t) : option (list Source.t) :=
  match sources with
  | [] => None
  | _ :: _ => Some (deduped sources)
  end.

End CitationList.

Definition src (id : string) (url : option string) (sim : number) : Source.t :=
  {| Source.id := id; Source.source_url := url; Source.similarity := sim |}.


(* ================================================================== *)
(** ** The resolver as an ordered table

    The specification describes [tryAnswerFromMuseumProfile] as an ordered
    list of categories, each with its triggers, its fact field, its answer
    template and its refusal.  [resolve] is that reading; it is proved equal
    to the transcription of the source. *)

Inductive category : Type :=
| Director
| Mission
| Founded
| FormerName
| Address
| Website
| Phone
| CanonicalName.


(** The condition of the category's [if], on the lower-cased question. *)
Definition triggers (c : category) (q : string) : bool :=
  match c with
  | Director =>
      hasAnyWholePhrase q ["director"; "ceo"; "leadership"]
      || includes q "executive director"
      || includes q "museum director"
  | Mission => hasAnyWholePhrase q ["mission"; "purpose"; "goal"]
  | Founded =>
      hasAnyWholePhrase q ["founded"; "established"]
      || test true (dotStar "when was" (Alt (Str "founded") (Str "established"))) q
      || test true (dotStar "when did" (Str "open")) q
      || hasWholePhrase q "built"
  | FormerName =>
      includes q "formerly"
      || includes q "former name"
      || includes q "used to be called"
      || includes q "old name"
      || includes q "renamed"
      || includes q "name change"
  | Address =>
      hasAnyWholePhrase q ["address"; "location"]
      || test true (dotStar "where" (Str "located")) q
      || includes q "where is it"
      || includes q "how do i get there"
  | Website => hasAnyWholePhrase q ["website"; "official site"; "url"]
  | Phone =>
      hasAnyWholePhrase q ["phone"; "telephone"; "contact number"]
      || hasWholePhrase q "call"
  | CanonicalName =>
      hasAnyWholePhrase q ["name of the museum"; "full name"]
      || test true (dotStar "what" (Str "name")) q
  end.

Definition location (museum : MuseumRow.t) : string :=
  join ", " (filterBoolean [ MuseumRow.address museum; MuseumRow.city museum;
                             MuseumRow.state museum; MuseumRow.postal_code museum;
                             MuseumRow.country museum ]).



Definition refusal (c : category) : string :=
  match c with
  | Director => "That isn’t available in the provided sources right now. Please check the museum’s official website for the latest leadership details."
  | Mission => "That isn’t available in the provided sources right now. Please check the museum’s official website for the mission statement."
  | Founded => "That isn’t available in the provided sources right now. Please check the museum’s official website for its history."
  | FormerName => "That isn’t available in the provided sources right now. Please check the museum’s official website for details about the name change."
  | Address => "That isn’t available in the provided sources right now. Please check the museum’s official website for location details."
  | Website | Phone | CanonicalName => "That isn’t available in the provided sources right now. Please check the museum’s official website."
  end.





(** An occurrence of a phrase of length [n] at index [i] of [q] lies inside
    a longer word: a word character stands right before it or right after
    it. *)
Definition insideWord (q : list ascii) (i n : nat) : bool :=
  match i with
  | O => false
  | S j => word_at q j
  end || word_at q (i + n).

(** Every occurrence of [phrase] in [q], compared without case, lies inside
    a longer word. *)
Definition onlyInsideWords (q phrase : string) : bool :=
  forallb
    (fun i =>
       implb (occurs_at (char_eq true) (chars (toLowerCase phrase)) (chars q) i)
             (insideWord (chars q) i (String.length phrase)))
    (positions (chars q)).

(** The phrase starts and ends with a word character. *)
Definition wordEnded (phrase : string) : bool :=
  match chars (toLowerCase phrase) with
  | [] => false
  | a :: rest => Chars.is_word a && Chars.is_word (last rest a)
  end.

(** Every occurrence of "mission" in [q] is the tail of an occurrence of
    "admission". *)
Definition missionOnlyInAdmission (q : string) : bool :=
  forallb
    (fun i =>
       implb (occurs_at (char_eq true) (chars "mission") (chars q) i)
             ((2 <=? i)%nat
              && occurs_at (char_eq true) (chars "admission") (chars q) (i - 2)))
    (positions (chars q)).

(* ================================================================== *)
(** ** Vocabulary of the properties of the handler *)

(** A POST request carrying the JSON body [b]. *)
Definition post (b : RagRequest) : Request :=
  {| req_method := POST; req_json := inr b |}.

(** The tenant id of a request body when it is present and a UUID. *)
Definition tenantId (j : string + RagRequest) : option string :=
  match j with
  | inl _ => None
  | inr b =>
      match truthy (museum_id b) with
      | Some museumId => if isValidUuid museumId then Some museumId else None
      | None => None
      end
  end.

(** Both secrets are set and the project ref can be read from the key. *)
Definition configured (up : Upstream) : bool :=
  negb (SERVICE_ROLE_KEY up =? "")%string
  && negb (OPENAI_API_KEY up =? "")%string
  && match jwt_ref up (SERVICE_ROLE_KEY up) with Some _ => true | None => false end.


Definition isErrorBody (b : Body) : bool :=
  match b with ErrorBody _ _ => true | _ => false end.


(** A sample environment: one museum, a fixed embedding, three stored
    passages of which the vector search returns [rows]. *)
Definition sampleUpstream (rows : list (MatchRow.t numstr)) : Upstream :=
  {| SERVICE_ROLE_KEY := "header.payload.signature";
     OPENAI_API_KEY := "sk-test";
     jwt_ref := fun _ => Some "abcdefghijklmnop";
     museums_single := fun museumId =>
       if (museumId =? MuseumRow.id akg)%string
       then Some (mkPg (Some akg) None)
       else Some (mkPg None (Some "JSON object requested, multiple (or no) rows returned"));
     getEmbedding := fun _ => inr (Some [Num 0; Num 1]);
     match_content_chunks := fun _ _ _ => mkPg (Some rows) None;
     content_chunks_in := fun ids =>
       mkPg (Some (map (fun id => (id, Some "https://www.buffaloakg.org")) ids)) None;
     chatCompletion := fun _ => inr "The museum is open Tuesday through Sunday." |}.

Definition ask (q : string) : RagRequest :=
  {| museum_id := Some (MuseumRow.id akg); question := Some q; match_count := None |}.

Definition row (id text : string) (similarity : numstr) : MatchRow.t numstr :=
  MatchRow.mk id text similarity.






(** A sample table: two passages of the museum and one of another tenant,
    the latter the closest to every query. *)
Definition otherTenant : string := "0b9d1c6e-3c1f-4d7a-9a51-2f6f4b6f0c11".

Definition sampleChunks : list Sql.content_chunk :=
  [ Sql.mkChunk "c1" (MuseumRow.id akg) "The museum is open Tuesday through Sunday."
      (Some "https://www.buffaloakg.org") "{}" (Some [Num (1 # 2)]);
    Sql.mkChunk "x1" otherTenant "Admission is 40 dollars." None "{}" (Some [Num 0]);
    Sql.mkChunk "c2" (MuseumRow.id akg) "Parking is available." None "{}" (Some [Num (1 # 4)]);
    Sql.mkChunk "c3" (MuseumRow.id akg) "Not embedded yet." None "{}" None ].

(** A distance for the sample: the gap between the first components. *)
Definition sampleDistance (e q : vector) : number :=
  match e, q with
  | x :: _, y :: _ => if Number.lt x y then Number.sub y x else Number.sub x y
  | _, _ => NaN
  end.




(* ================================================================== *)
(** ** Vocabulary of further properties of the rag_chat handler *)

(** The stage of the pipeline an upstream call belongs to. *)
Definition stage (c : call) : nat :=
  match c with
  | TenantLookup _ => 0
  | Embedding _ => 1
  | VectorSearch _ _ _ => 2
  | SourceLookup _ => 3
  | ChatCompletion _ => 4
  end.

(** The context block and the prompt the handler builds from the strong
    matches. *)
Definition contextOf (strong : list (MatchRow.t number)) : string :=
  join (newline ++ newline)%string (numbered 0 strong).



(** Sample rows of a vector search: one strong match, one weak, one whose
    similarity does not parse. *)
Definition sampleRows : list (MatchRow.t numstr) :=
  [ row "c1" "The museum is open Tuesday through Sunday." (OfString "0.82");
    row "c2" "Parking is available." (OfNumber (Num (3 # 10)));
    row "c3" "Admission is free on first Fridays." (OfString "NaN") ].



(** The shape of an accepted tenant id, position by position: 36
    characters, hyphens at 8, 13, 18 and 23, a version digit 1-5 at 14, a
    variant digit 8, 9, a or b at 19, hexadecimal digits elsewhere. *)
Definition hexDigit (c : ascii) : bool :=
  Chars.is_digit c || Chars.between 97 102 c || Chars.between 65 70 c.

Definition uuidChar (k : nat) (c : ascii) : bool :=
  if existsb (Nat.eqb k) [8; 13; 18; 23]%nat then Ascii.eqb c "-"
  else if (k =? 14)%nat then Chars.between 49 53 c
  else if (k =? 19)%nat then existsb (Ascii.eqb c) (chars "89abAB")
  else hexDigit c.

Definition uuidShape (s : string) : bool :=
  (String.length s =? 36)%nat
  && forallb
       (fun k =>
          match nth_error (chars s) k with
          | Some c => uuidChar k c
          | None => false
          end)
       (seq 0 36).

(* ================================================================== *)
(** ** redeem_ticket/index.ts *)

(** Character by character, what [UUID_REGEX] accepts. *)
Definition uuidPointwise (l : list ascii) : Prop :=
  List.length l = 36%nat
  /\ forall k, (k < 36)%nat ->
       exists c, nth_error l k = Some c /\ uuidChar k c = true.

From Stdlib.Strings Require Byte.
From Stdlib Require HexadecimalString.

(** The value of type [uuid] that Postgres reads from a text which has the
    shape of a UUID: the case of the letters is not significant, and the
    value is written in lower case. *)
Definition uuid_in (s : string) : string := toLowerCase s.

Module Redeem.

(** [n.toString(16)] for a non-negative integer. *)
Definition toString16 (n : N) : string :=
  HexadecimalString.NilZero.string_of_uint (N.to_hex_uint n).

(** [s.padStart(n, pad)] for a pad of one character. *)
Definition padStart (n : nat) (pad : ascii) (s : string) : string :=
  (text (repeat pad (n - String.length s)) ++ s)%string.

Definition bytesToHex (bytes : list Init.Byte.byte) : string :=
  join "" (map (fun b => padStart 2 "0" (toString16 (Strings.Byte.to_N b))) bytes).

(** [new TextEncoder().encode(input)]: the bytes of the string. *)
Definition encode (input : string) : list Init.Byte.byte :=
  map Ascii.byte_of_ascii (chars input).

Module Ticket.
(** A row of [ticket_codes] (migration 001). *)
Record t : Type := mk {
  id : string;
  museum_id : string;          (* not null *)
  code_hash : string;          (* not null *)
  is_active : option bool;
  valid_from : option Z;       (* timestamptz, as an instant *)
  valid_to : option Z;
  max_sessions : option Z
}.
End Ticket.

Record RedeemRequest : Type := mkRedeemRequest {
  code : option string;
  museum_id : option string
}.

Record Request : Type := mkRequest {
  req_method : method;
  req_json : string + RedeemRequest
}.

Inductive Body : Type :=
| Plain (s : string)
| ErrorBody (error : string) (detail : option string)
| Redeemed (museum_id ticket_code_id : string) (valid_to : option Z).

Record Response : Type := mkResponse {
  status : nat;
  body : Body
}.

Definition json (status : nat) (b : Body) : Response :=
  {| status := status; body := b |}.

(** The environment: the secret, the clock, the table and the digest.
    [query_error h] is the error, if any, that the query for the code hash
    [h] reports. *)
Record Env : Type := mkEnv {
  SERVICE_ROLE_KEY : string;
  jwt_ref : string -> option string;
  now : Z;
  ticket_codes : list Ticket.t;
  query_error : string -> option string;
  (** [crypto.subtle.digest("SHA-256", data)] *)
  digest : list Init.Byte.byte -> list Init.Byte.byte
}.

Definition sha256Hex (env : Env) (input : string) : string :=
  bytesToHex (digest env (encode input)).

(** One query on [ticket_codes]: the code hash looked for and the museum
    filter, if any. *)
Inductive query : Type :=
| Select (code_hash : string) (museumId : option string).

(** The filters of the query, with the comparisons of SQL: a null column
    satisfies none. *)
Definition selected (code_hash : string) (museumId : option string) (now : Z)
  (t : Ticket.t) : bool :=
  (Ticket.code_hash t =? code_hash)%string
  && match Ticket.is_active t with Some a => Bool.eqb a true | None => false end
  && match Ticket.valid_from t with Some f => (f <=? now)%Z | None => false end
  && match Ticket.valid_to t with Some u => (now <=? u)%Z | None => false end
  && match museumId with
     | Some m => (Ticket.museum_id t =? uuid_in m)%string
     | None => true
     end.

(** The rows the query returns: [limit(1)] of the rows that pass. *)
Definition select (env : Env) (code_hash : string) (museumId : option string)
  : list Ticket.t :=
  firstn 1 (filter (selected code_hash museumId (now env)) (ticket_codes env)).

Definition redeemed (t : Ticket.t) : Response :=
  json 200 (Redeemed (Ticket.museum_id t) (Ticket.id t) (Ticket.valid_to t)).

(** The [try] block: the queries made and either a thrown message or the
    response. *)
Definition tryBlock (env : Env) (req : Request) : list query * (string + Response) :=
  if (SERVICE_ROLE_KEY env =? "")%string
  then ([], inr (json 500 (ErrorBody "Server configuration error" None)))
  else
    match req_json req with
    | inl msg => ([], inl msg)
    | inr b =>
      let rawCode := option_map trim (code b) in
      let museumId := truthy (museum_id b) in
      match truthy rawCode with
      | None => ([], inr (json 400 (ErrorBody "Missing code" None)))
      | Some rawCode =>
        if match museumId with Some m => negb (isValidUuid m) | None => false end
        then ([], inr (json 400 (ErrorBody "Invalid museum_id" None)))
        else
          match jwt_ref env (SERVICE_ROLE_KEY env) with
          | None => ([], inl "Could not derive SUPABASE_URL from SERVICE_ROLE_KEY")
          | Some _ =>
            (* 1) direct match *)
            let q1 := Select rawCode museumId in
            match query_error env rawCode with
            | Some message => ([q1], inl message)
            | None =>
              match select env rawCode museumId with
              | ticket :: _ => ([q1], inr (redeemed ticket))
              | [] =>
                (* 2) sha256(code) match *)
                let hashed := sha256Hex env rawCode in
                let q2 := Select hashed museumId in
                match query_error env hashed with
                | Some message => ([q1; q2], inl message)
                | None =>
                  match select env hashed museumId with
                  | ticket :: _ => ([q1; q2], inr (redeemed ticket))
                  | [] =>
                      ([q1; q2],
                       inr (json 401 (ErrorBody "Invalid or expired ticket" None)))
                  end
                end
              end
            end
          end
      end
    end.

(** [handler]: the response and the queries made, in order. *)
Definition handler (env : Env) (req : Request) : Response * list query :=
  match req_method req with
  | OPTIONS => (json 200 (Plain "ok"), [])
  | OtherMethod _ => (json 405 (ErrorBody "Method not allowed" None), [])
  | POST =>
      match tryBlock env req with
      | (t, inr response) => (response, t)
      | (t, inl msg) => (json 500 (ErrorBody "Internal server error" (Some msg)), t)
      end
  end.




Definition post (b : RedeemRequest) : Request :=
  {| req_method := POST; req_json := inr b |}.

Definition lowerHex (c : ascii) : bool :=
  Chars.is_digit c || Chars.between 97 102 c.

(** The inverse of the two hexadecimal digits of a byte. *)
Definition hexValue (c : ascii) : option N :=
  let n := N.of_nat (Chars.code c) in
  if Chars.is_digit c then Some (n - 48)%N
  else if Chars.between 97 102 c then Some (n - 87)%N
  else None.

Definition byteOfHex (hi lo : ascii) : option Init.Byte.byte :=
  match hexValue hi, hexValue lo with
  | Some h, Some l => Strings.Byte.of_N (16 * h + l)
  | _, _ => None
  end.

Fixpoint hexToBytes (l : list ascii) : option (list Init.Byte.byte) :=
  match l with
  | [] => Some []
  | hi :: lo :: rest =>
      match byteOfHex hi lo, hexToBytes rest with
      | Some b, Some bs => Some (b :: bs)
      | _, _ => None
      end
  | [_] => None
  end.

(** A sample table and environment: the seeded demo ticket, an expired
    one, an inactive one and one with an open-ended window. *)
Definition sampleTickets : list Ticket.t :=
  [ Ticket.mk "t0" (MuseumRow.id akg) "demo_hash_1" (Some false) (Some 0%Z) (Some 100%Z) (Some 50%Z);
    Ticket.mk "t1" (MuseumRow.id akg) "demo_hash_1" (Some true) (Some 0%Z) (Some 100%Z) (Some 50%Z);
    Ticket.mk "t2" (MuseumRow.id akg) "demo_hash_2" (Some true) (Some 0%Z) (Some 10%Z) (Some 50%Z);
    Ticket.mk "t3" (MuseumRow.id akg) "demo_hash_3" (Some true) (Some 0%Z) None (Some 50%Z);
    Ticket.mk "t4" otherTenant "6162" (Some true) (Some 0%Z) (Some 100%Z) None ].

Definition sampleEnv : Env :=
  {| SERVICE_ROLE_KEY := "header.payload.signature";
     jwt_ref := fun _ => Some "abcdefghijklmnop";
     now := 50%Z;
     ticket_codes := sampleTickets;
     query_error := fun _ => None;
     digest := fun data => firstn 2 data |}.


End Redeem.

(* ================================================================== *)
(** ** White space at the ends of a string *)

(** [dropEnd p l]: [l] without its longest suffix of elements in [p]. *)
Definition dropEnd {A} (p : A -> bool) (l : list A) : list A :=
  rev (dropWhile p (rev l)).

(** [trim] on the characters of a string. *)
Definition strip (l : list ascii) : list ascii :=
  dropEnd Chars.is_space (dropWhile Chars.is_space l).

Definition nonSpace (c : ascii) : bool := negb (Chars.is_space c).

(* ================================================================== *)
(** ** frontend: [TicketRedeem] *)

Module TicketRedeem.

(** [String.prototype.toUpperCase] *)
Definition toUpperCase (s : string) : string :=
  text (map Chars.upper (chars s)).



(** [raw.trim().toUpperCase().replace(/\s+/g, "")] *)
Definition normalize (raw : string) : string :=
  text (filter nonSpace (chars (toUpperCase (trim raw)))).



End TicketRedeem.

(* ================================================================== *)
(** ** ingest_seed/index.ts: text helpers *)

Module Ingest.

(** [s.replace(/\s+/g, " ")]: every run of white space becomes one space.
    [inRun] says that the character before was white space. *)
Fixpoint collapse (inRun : bool) (l : list ascii) : list ascii :=
  match l with
  | [] => []
  | c :: l' =>
      if Chars.is_space c
      then if inRun then collapse true l' else " "%char :: collapse true l'
      else c :: collapse false l'
  end.

Definition normalizeWhitespace (s : string) : string :=
  trim (text (collapse false (chars s))).


(** [t.slice(start, end)] for integers [start] and [end]: a negative index
    counts from the end. *)
Definition slice (t : list ascii) (start end_ : Z) : list ascii :=
  let len := Z.of_nat (List.length t) in
  let from := if (start <? 0)%Z then Z.max (len + start) 0 else Z.min start len in
  let to := if (end_ <? 0)%Z then Z.max (len + end_) 0 else Z.min end_ len in
  firstn (Z.to_nat (to - from)) (skipn (Z.to_nat from) t).

(** The [while] loop of [chunkText], with [fuel] iterations at most;
    [None]: the loop is still running when the fuel is used up.  The chunk
    size and the overlap are integers. *)
Fixpoint chunkLoop (fuel : nat) (t : list ascii) (chunkSize overlap : Z)
  (start : Z) (chunks : list string) : option (list string) :=
  match fuel with
  | O => None
  | S fuel' =>
      let len := Z.of_nat (List.length t) in
      if (start <? len)%Z then
        let end_ := Z.min (start + chunkSize) len in
        let piece := strip (slice t start end_) in
        let chunks' :=
          if (200 <=? List.length piece)%nat then chunks ++ [text piece] else chunks in
        if (len <=? end_)%Z then Some chunks'
        else chunkLoop fuel' t chunkSize overlap (Z.max 0 (end_ - overlap)) chunks'
      else Some chunks
  end.

Definition chunkText (fuel : nat) (text_ : string) (chunkSize overlap : Z)
  : option (list string) :=
  let t := trim text_ in
  if (t =? "")%string then Some []
  else chunkLoop fuel (chars t) chunkSize overlap 0 [].



(** A page of 450 letters. *)
Definition samplePage : string := text (repeat "a"%char 450).

End Ingest.

(* ================================================================== *)
(** ** The [chat] edge function *)

Module Chat.

(** [/^[0-9a-f]{8}-[0-9a-f]{4}-[0-9a-f]{4}-[0-9a-f]{4}-[0-9a-f]{12}$/i] *)
Definition UUID_REGEX : regex :=
  seqs [ Bol; Rep 8 hex; Str "-"; Rep 4 hex; Str "-"; Rep 4 hex; Str "-";
         Rep 4 hex; Str "-"; Rep 12 hex; Eol ].

Definition isValidUuid (uuid : string) : bool := test true UUID_REGEX uuid.

(** The [top_k] field of the body. *)
Inductive top_k_field : Type :=
| TopAbsent
| TopNumber (n : number)
| TopOther.                      (* present and not of type number *)

Record ChatRequest : Type := mkChatRequest {
  museum_id : option string;
  question : option string;      (* [None]: absent or not a string *)
  top_k : top_k_field
}.

Record Request : Type := mkRequest {
  req_method : method;
  req_json : string + ChatRequest  (* [inl msg]: reading the body throws *)
}.

Record source : Type := mkSource {
  id : string;
  similarity : number
}.

Inductive Body : Type :=
| Plain (s : string)
| ErrorBody (error : string) (detail : option string)
| AnswerBody (answer : string) (sources : list source).

Record Response : Type := mkResponse {
  status : nat;
  body : Body
}.

Definition json (status : nat) (b : Body) : Response :=
  {| status := status; body := b |}.

(** The environment: the three settings and the services.  A [string + A]
    result is [inl msg] when the call throws [Error(msg)]. *)
Record Env : Type := mkEnv {
  SUPABASE_URL : string;
  SERVICE_ROLE_KEY : string;
  OPENAI_API_KEY : string;
  (** [data.data[0].embedding] of the embeddings endpoint *)
  generateEmbedding : string -> string + option vector;
  (** [rpc("match_chunks", { p_museum_id, p_query_embedding, p_match_count })];
      the embedding is the vector that the literal denotes *)
  rpc_match_chunks : string -> vector -> number -> PgResult (list Sql.match_row);
  (** the chat completions endpoint, for a context and a question *)
  generateChatCompletion : string -> string -> string + string
}.

Inductive call : Type :=
| Embedding (input : string)
| MatchChunks (p_museum_id : string) (p_query_embedding : vector) (p_match_count : number)
| Completion (context question : string).

(** [matchChunks]: [queryEmbedding.join] throws on an embedding that is
    undefined, before the call is made. *)
Definition matchChunks (env : Env) (museumId : string)
  (queryEmbedding : option vector) (matchCount : number)
  : list call * (string + list Sql.match_row) :=
  match queryEmbedding with
  | None => ([], inl "Cannot read properties of undefined (reading 'join')")
  | Some e =>
      let r := rpc_match_chunks env museumId e matchCount in
      ([MatchChunks museumId e matchCount],
       match error r with
       | Some message => inl message
       | None => inr (match data r with Some rows => rows | None => [] end)
       end)
  end.

Definition sourcesOf (matchedChunks : list Sql.match_row) : list source :=
  map (fun chunk => {| id := Sql.m_id chunk; similarity := Sql.m_similarity chunk |})
      matchedChunks.

Definition contextOf (matchedChunks : list Sql.match_row) : string :=
  join (newline ++ newline)%string (map Sql.m_chunk_text matchedChunks).

(** The steps after validation: embed, match, complete. *)
Definition answer (env : Env) (museum_id question : string) (top_k : number)
  : list call * Response :=
  match generateEmbedding env question with
  | inl msg =>
      ([Embedding question],
       json 502 (ErrorBody "Failed to generate embedding" (Some msg)))
  | inr queryEmbedding =>
      match matchChunks env museum_id queryEmbedding top_k with
      | (t, inl msg) =>
          (Embedding question :: t,
           json 502 (ErrorBody "Failed to match chunks" (Some msg)))
      | (t, inr matchedChunks) =>
          if (List.length matchedChunks =? 0)%nat
          then (Embedding question :: t,
                json 404 (ErrorBody "No relevant content found" None))
          else
            let context := contextOf matchedChunks in
            match generateChatCompletion env context question with
            | inl msg =>
                (Embedding question :: t ++ [Completion context question],
                 json 502 (ErrorBody "Failed to generate answer" (Some msg)))
            | inr answer =>
                (Embedding question :: t ++ [Completion context question],
                 json 200 (AnswerBody answer (sourcesOf matchedChunks)))
            end
      end
  end.

(** [top_k = 5] in the destructuring of the body, and the type test of the
    validation: the number that [top_k] is, 5 when the field is undefined,
    [None] when it is not of type number. *)
Definition withDefault (k : top_k_field) : option number :=
  match k with
  | TopAbsent => Some (Num 5)
  | TopNumber n => Some n
  | TopOther => None
  end.

(** The [try] block: the calls made and either a thrown message or the
    response. *)
Definition tryBlock (env : Env) (req : Request) : list call * (string + Response) :=
  if (SUPABASE_URL env =? "")%string || (SERVICE_ROLE_KEY env =? "")%string
     || (OPENAI_API_KEY env =? "")%string
  then ([], inr (json 500 (ErrorBody "Server configuration error" None)))
  else
    match req_json req with
    | inl msg => ([], inl msg)
    | inr b =>
      let top_k := withDefault (top_k b) in
      match truthy (museum_id b) with
      | None => ([], inr (json 400 (ErrorBody "Invalid or missing museum_id" None)))
      | Some museum_id =>
        if negb (isValidUuid museum_id)
        then ([], inr (json 400 (ErrorBody "Invalid or missing museum_id" None)))
        else
          match truthy (question b) with
          | None => ([], inr (json 400 (ErrorBody "Invalid or missing question" None)))
          | Some question =>
            if (String.length (trim question) =? 0)%nat
            then ([], inr (json 400 (ErrorBody "Invalid or missing question" None)))
            else
              match top_k with
              | None =>
                  ([], inr (json 400 (ErrorBody "top_k must be between 1 and 20" None)))
              | Some top_k =>
                  if Number.lt top_k (Num 1) || Number.gt top_k (Num 20)
                  then ([], inr (json 400
                                   (ErrorBody "top_k must be between 1 and 20" None)))
                  else
                    let (t, response) := answer env museum_id question top_k in
                    (t, inr response)
              end
          end
      end
    end.

(** [handler]: the response and the calls made, in order. *)
Definition handler (env : Env) (req : Request) : Response * list call :=
  match req_method req with
  | OPTIONS => (json 200 (Plain "ok"), [])
  | OtherMethod _ => (json 405 (ErrorBody "Method not allowed" None), [])
  | POST =>
      match tryBlock env req with
      | (t, inr response) => (response, t)
      | (t, inl _) => (json 500 (ErrorBody "Internal server error" None), t)
      end
  end.

(** The stage of the pipeline a call belongs to. *)
Definition stage (c : call) : nat :=
  match c with
  | Embedding _ => 0
  | MatchChunks _ _ _ => 1
  | Completion _ _ => 2
  end.

(** The RPC endpoint over the table [content_chunks]: [public.match_chunks]
    is run when [p_match_count] is an integer, and an error is reported
    otherwise. *)
Definition rpc (distance : vector -> vector -> number)
  (content_chunks : list Sql.content_chunk)
  (p_museum_id : string) (p_query_embedding : vector) (p_match_count : number)
  : PgResult (list Sql.match_row) :=
  match p_match_count with
  | Num q =>
      if (Z.pos (Qden (Qred q)) =? 1)%Z
      then
        match Sql.match_chunks distance content_chunks (uuid_in p_museum_id)
                p_query_embedding (Qnum (Qred q)) with
        | inr rows => mkPg (Some rows) None
        | inl message => mkPg None (Some message)
        end
      else mkPg None (Some "invalid input syntax for type integer")
  | _ => mkPg None (Some "invalid input syntax for type integer")
  end.

(** The function's RPC calls are served from the table [content_chunks]. *)
Definition servedFrom (distance : vector -> vector -> number)
  (content_chunks : list Sql.content_chunk) (env : Env) : Prop :=
  forall m q k, rpc_match_chunks env m q k = rpc distance content_chunks m q k.

(** The settings are present. *)
Definition configured (env : Env) : Prop :=
  SUPABASE_URL env <> ""%string /\ SERVICE_ROLE_KEY env <> ""%string
  /\ OPENAI_API_KEY env <> ""%string.

(** A passage of the museum [m] that the search can return. *)
Definition searchable (content_chunks : list Sql.content_chunk) (m : string)
  (c : Sql.content_chunk) : Prop :=
  In c content_chunks /\ Sql.museum_id c = m /\ Sql.embedding c <> None.

Definition post (b : ChatRequest) : Request :=
  {| req_method := POST; req_json := inr b |}.

(** An environment over the sample table: every question embeds to the same
    vector and the model answers with a fixed text. *)
Definition sampleEnv : Env :=
  {| SUPABASE_URL := "https://example.supabase.co";
     SERVICE_ROLE_KEY := "service-role-key";
     OPENAI_API_KEY := "openai-key";
     generateEmbedding := fun _ => inr (Some [Num 0]);
     rpc_match_chunks := rpc sampleDistance sampleChunks;
     generateChatCompletion := fun _ _ => inr "The museum is open." |}.

Definition ask (q : string) (k : top_k_field) : Request :=
  post {| museum_id := Some (MuseumRow.id akg); question := Some q; top_k := k |}.

(** A top_k that passes validation and that the database accepts: absent,
    or an integer from 1 to 20; with the count it stands for. *)
Definition count (k : top_k_field) : option Z :=
  match k with
  | TopAbsent => Some 5%Z
  | TopNumber (Num x) =>
      if (Z.pos (Qden (Qred x)) =? 1)%Z
         && (1 <=? Qnum (Qred x))%Z && (Qnum (Qred x) <=? 20)%Z
      then Some (Qnum (Qred x))
      else None
  | _ => None
  end.


Definition nilUuid : string := "00000000-0000-0000-0000-000000000000".


End Chat.

(* ================================================================== *)
(** ** ingest_seed/index.ts: the handler

    The handler is modelled over the table [content_chunks] as a state.
    Every call to the outside (a page fetch, the embeddings endpoint, a
    statement on the table) reads the clock of the state and advances it,
    so that the same call may give another result later.  The numbers of
    the request body ([chunk_size], [chunk_overlap], [limit]) are
    integers.  The chain of replacements at the head of [htmlToText] is
    the function [replaceMarkup] of the environment. *)

Module Seed.

(** A row of [content_chunks] with its [created_at]. *)
Record row : Type := mkRow {
  chunk : Sql.content_chunk;
  created_at : Z
}.

Record Db : Type := mkDb {
  content_chunks : list row;
  clock : nat
}.

Definition tick (db : Db) : Db :=
  {| content_chunks := content_chunks db; clock := S (clock db) |}.

Definition store (db : Db) (rows : list row) : Db :=
  {| content_chunks := rows; clock := clock db |}.

Record IngestRequest : Type := mkIngestRequest {
  museum_id : option string;
  urls : option (list string);     (* [Some]: [Array.isArray(urls)] *)
  replace_existing : bool;         (* [Boolean(body.replace_existing)] *)
  chunk_size : option Z;           (* [Some]: of type number *)
  chunk_overlap : option Z;
  limit : option Z
}.

Record Request : Type := mkRequest {
  req_method : method;
  req_json : string + IngestRequest
}.

Inductive Body : Type :=
| Plain (s : string)
| ErrorBody (error : string) (detail : option string)
| Ingested (pages inserted embedded : nat) (errors : list (string * string))
| Updated (updated : nat).

Record Response : Type := mkResponse {
  status : nat;
  body : Body
}.

Definition json (status : nat) (b : Body) : Response :=
  {| status := status; body := b |}.

(** The environment.  A [string + A] result is [inl msg] when the call
    throws [Error(msg)]; an [option string] is the error a statement
    reports, if any. *)
Record Env : Type := mkEnv {
  SERVICE_ROLE_KEY : string;
  OPENAI_API_KEY : string;
  SUPABASE_URL_ENV : string;
  jwt_ref : string -> option string;
  (** [fetch(url)] and [res.text()]: the page, or the message thrown (for a
      response that is not ok, "Fetch failed: ...") *)
  fetch : nat -> string -> string + string;
  (** the replacements of [htmlToText] before [normalizeWhitespace] *)
  replaceMarkup : string -> string;
  (** the embeddings endpoint, as [getEmbeddings] sees it *)
  getEmbeddings : nat -> list string -> string + list vector;
  delete_error : nat -> option string;
  insert_error : nat -> option string;
  select_error : nat -> option string;
  update_error : nat -> option string;
  (** the defaults of the columns [id] and [created_at] *)
  gen_random_uuid : nat -> nat -> string;
  now : nat -> Z
}.

Definition getSupabaseUrl (env : Env) : string + string :=
  if negb (SUPABASE_URL_ENV env =? "")%string then inr (SUPABASE_URL_ENV env)
  else if (SERVICE_ROLE_KEY env =? "")%string then inl "Missing SERVICE_ROLE_KEY"
  else
    match jwt_ref env (SERVICE_ROLE_KEY env) with
    | Some ref => inr ("https://" ++ ref ++ ".supabase.co")%string
    | None => inl "Could not derive SUPABASE_URL from SERVICE_ROLE_KEY"
    end.

Definition htmlToText (env : Env) (html : string) : string :=
  Ingest.normalizeWhitespace (replaceMarkup env html).

(** *** Mode 1: full ingest *)

(** [chunks.slice(i, i + BATCH)] for [i = 0, 50, 100, ...], in at most
    [fuel] rounds. *)
Fixpoint batchesOf (fuel : nat) (chunks : list string) : list (list string) :=
  match fuel with
  | O => []
  | S fuel' =>
      match chunks with
      | [] => []
      | _ :: _ => firstn 50 chunks :: batchesOf fuel' (skipn 50 chunks)
      end
  end.

Definition batches (chunks : list string) : list (list string) :=
  batchesOf (List.length chunks) chunks.

(** The rows that [insert(rows)] stores for a batch, the [k]-th row of the
    statement first. *)
Fixpoint newRows (env : Env) (at_ : nat) (k : nat) (museumId url : string)
  (batch : list string) (vecs : list vector) : list row :=
  match batch, vecs with
  | chunk_text :: batch', vec :: vecs' =>
      {| chunk := Sql.mkChunk (gen_random_uuid env at_ k) museumId chunk_text
                    (Some url) "{}" (Some vec);
         created_at := now env at_ |}
      :: newRows env at_ (S k) museumId url batch' vecs'
  | _, _ => []
  end.

(** One round of the batch loop: embed, insert.  [vecs[idx]] is undefined
    when the endpoint returned fewer vectors than inputs, and
    [toVectorLiteral] then throws. *)
Definition ingestBatch (env : Env) (museumId url : string) (db : Db)
  (batch : list string) : Db * (string + nat) :=
  match getEmbeddings env (clock db) batch with
  | inl msg => (tick db, inl msg)
  | inr vecs =>
      let db1 := tick db in
      if (List.length vecs <? List.length batch)%nat
      then (db1, inl "Cannot read properties of undefined (reading 'join')")
      else
        match insert_error env (clock db1) with
        | Some message => (tick db1, inl ("Insert failed: " ++ message)%string)
        | None =>
            (tick (store db1
                     (content_chunks db1
                      ++ newRows env (clock db1) 0 museumId url batch vecs)),
             inr (List.length batch))
        end
  end.

(** The batch loop of one page: the state, the rows inserted so far and
    the message thrown, if any. *)
Fixpoint ingestBatches (env : Env) (museumId url : string) (db : Db)
  (todo : list (list string)) (inserted : nat) : Db * nat * option string :=
  match todo with
  | [] => (db, inserted, None)
  | batch :: rest =>
      match ingestBatch env museumId url db batch with
      | (db', inl msg) => (db', inserted, Some msg)
      | (db', inr n) => ingestBatches env museumId url db' rest (inserted + n)
      end
  end.

(** The body of the loop over the urls, with its [try] and [catch].
    [None]: [chunkText] is still running after [fuel] rounds. *)
Definition ingestPage (fuel : nat) (env : Env) (museumId : string)
  (chunkSize chunkOverlap : Z) (db : Db) (url : string)
  : option (Db * nat * option string) :=
  match fetch env (clock db) url with
  | inl msg => Some (tick db, O, Some msg)
  | inr html =>
      let text_ := htmlToText env html in
      let docText := ("Source: " ++ url ++ newline ++ newline ++ text_)%string in
      match Ingest.chunkText fuel docText chunkSize chunkOverlap with
      | None => None
      | Some chunks =>
          Some (ingestBatches env museumId url (tick db) (batches chunks) 0)
      end
  end.

Fixpoint ingestPages (fuel : nat) (env : Env) (museumId : string)
  (chunkSize chunkOverlap : Z) (db : Db) (todo : list string)
  (inserted : nat) (errors : list (string * string))
  : option (Db * nat * list (string * string)) :=
  match todo with
  | [] => Some (db, inserted, errors)
  | url :: rest =>
      match ingestPage fuel env museumId chunkSize chunkOverlap db url with
      | None => None
      | Some (db', n, thrown) =>
          ingestPages fuel env museumId chunkSize chunkOverlap db' rest
            (inserted + n)
            (match thrown with
             | Some msg => errors ++ [(url, msg)]
             | None => errors
             end)
      end
  end.

(** The rows of another museum. *)
Definition foreign (museumId : string) (r : row) : bool :=
  negb (Sql.museum_id (chunk r) =? museumId)%string.

(** [typeof body.chunk_size === "number" ? body.chunk_size : 1200] *)
Definition chunkSizeOf (b : IngestRequest) : Z :=
  match chunk_size b with Some n => n | None => 1200%Z end.

(** [typeof body.chunk_overlap === "number" ? body.chunk_overlap : 200] *)
Definition chunkOverlapOf (b : IngestRequest) : Z :=
  match chunk_overlap b with Some n => n | None => 200%Z end.

Definition fullIngest (fuel : nat) (env : Env) (db : Db) (museumId : string)
  (b : IngestRequest) (urls : list string) : option (Db * (string + Response)) :=
  let chunkSize := chunkSizeOf b in
  let chunkOverlap := chunkOverlapOf b in
  let cleared : Db * option string :=
    if replace_existing b
    then
      match delete_error env (clock db) with
      | Some message => (tick db, Some ("Failed to delete old chunks: " ++ message)%string)
      | None =>
          (tick (store db (filter (foreign (uuid_in museumId)) (content_chunks db))),
           None)
      end
    else (db, None) in
  match cleared with
  | (db1, Some msg) => Some (db1, inl msg)
  | (db1, None) =>
      match ingestPages fuel env (uuid_in museumId) chunkSize chunkOverlap db1 urls 0 []
      with
      | None => None
      | Some (db2, inserted, errors) =>
          Some (db2, inr (json 200 (Ingested (List.length urls) inserted inserted errors)))
      end
  end.

(** *** Mode 2: backfill *)

Definition clampLimit (limit : option Z) : Z :=
  match limit with
  | Some l => if (0 <? l)%Z then Z.min l 200 else 50%Z
  | None => 50%Z
  end.

(** A row of the museum whose embedding is null. *)
Definition missing (museumId : string) (r : row) : bool :=
  (Sql.museum_id (chunk r) =? museumId)%string
  && match Sql.embedding (chunk r) with None => true | Some _ => false end.

Definition getChunksWithoutEmbedding (env : Env) (db : Db) (museumId : string)
  (limit : Z) : Db * (string + list row) :=
  match select_error env (clock db) with
  | Some message => (tick db, inl message)
  | None =>
      (tick db,
       inr (firstn (Z.to_nat limit)
              (sort (fun a b => (created_at b <? created_at a)%Z)
                 (filter (missing museumId) (content_chunks db)))))
  end.

Definition setEmbedding (embedding : vector) (r : row) : row :=
  {| chunk := Sql.mkChunk (Sql.id (chunk r)) (Sql.museum_id (chunk r))
                (Sql.chunk_text (chunk r)) (Sql.source_url (chunk r))
                (Sql.metadata (chunk r)) (Some embedding);
     created_at := created_at r |}.

Definition updateChunkEmbedding (env : Env) (db : Db) (id : string)
  (embedding : vector) : Db * option string :=
  match update_error env (clock db) with
  | Some message => (tick db, Some message)
  | None =>
      (tick (store db
               (map (fun r => if (Sql.id (chunk r) =? id)%string
                              then setEmbedding embedding r else r)
                  (content_chunks db))),
       None)
  end.

(** The loop over the chunks and their embeddings, which are as many. *)
Fixpoint updateAll (env : Env) (db : Db) (chunks : list row)
  (embeddings : list vector) (updatedCount : nat) : Db * (string + nat) :=
  match chunks, embeddings with
  | c :: chunks', e :: embeddings' =>
      match updateChunkEmbedding env db (Sql.id (chunk c)) e with
      | (db', Some msg) => (db', inl msg)
      | (db', None) => updateAll env db' chunks' embeddings' (S updatedCount)
      end
  | _, _ => (db, inr updatedCount)
  end.

Definition backfill (env : Env) (db : Db) (museumId : string) (b : IngestRequest)
  : Db * (string + Response) :=
  let limit := clampLimit (limit b) in
  match getChunksWithoutEmbedding env db (uuid_in museumId) limit with
  | (db1, inl msg) => (db1, inl msg)
  | (db1, inr chunks) =>
      if (List.length chunks =? 0)%nat
      then (db1, inr (json 200 (Updated 0)))
      else
        let texts := map (fun c => Sql.chunk_text (chunk c)) chunks in
        match getEmbeddings env (clock db1) texts with
        | inl msg => (tick db1, inl msg)
        | inr embeddings =>
            if negb (List.length embeddings =? List.length chunks)%nat
            then (tick db1, inr (json 502 (ErrorBody "Embedding count mismatch" None)))
            else
              match updateAll env (tick db1) chunks embeddings 0 with
              | (db2, inl msg) => (db2, inl msg)
              | (db2, inr updatedCount) => (db2, inr (json 200 (Updated updatedCount)))
              end
        end
  end.

(** *** The handler *)

Definition tryBlock (fuel : nat) (env : Env) (db : Db) (req : Request)
  : option (Db * (string + Response)) :=
  if (SERVICE_ROLE_KEY env =? "")%string || (OPENAI_API_KEY env =? "")%string
  then Some (db, inr (json 500 (ErrorBody "Server configuration error" None)))
  else
    match getSupabaseUrl env with
    | inl msg => Some (db, inl msg)
    | inr _ =>
      match req_json req with
      | inl msg => Some (db, inl msg)
      | inr b =>
        match truthy (museum_id b) with
        | None => Some (db, inr (json 400 (ErrorBody "Invalid or missing museum_id" None)))
        | Some museumId =>
          if negb (isValidUuid museumId)
          then Some (db, inr (json 400 (ErrorBody "Invalid or missing museum_id" None)))
          else
            match urls b with
            | Some (url :: rest) => fullIngest fuel env db museumId b (url :: rest)
            | _ => Some (backfill env db museumId b)
            end
        end
      end
    end.

(** [handler]: the response and the table afterwards; [None] when the
    handler is still running after [fuel] rounds of a [chunkText] loop. *)
Definition handler (fuel : nat) (env : Env) (db : Db) (req : Request)
  : option (Response * Db) :=
  match req_method req with
  | OPTIONS => Some (json 200 (Plain "ok"), db)
  | OtherMethod _ => Some (json 405 (ErrorBody "Method not allowed" None), db)
  | POST =>
      match tryBlock fuel env db req with
      | None => None
      | Some (db', inr response) => Some (response, db')
      | Some (db', inl msg) =>
          Some (json 500 (ErrorBody "Internal server error" (Some msg)), db')
      end
  end.

Definition post (b : IngestRequest) : Request :=
  {| req_method := POST; req_json := inr b |}.



(** A row after a backfill for [museumId]: as before, or a row of the
    museum that had no embedding and has one now. *)
Definition backfilled (museumId : string) (before after : row) : Prop :=
  after = before
  \/ (missing museumId before = true
      /\ exists embedding, after = setEmbedding embedding before).

(** The id of a row. *)
Definition rid (r : row) : string := Sql.id (chunk r).

(** A sample: the table of the sample passages, an environment in which
    nothing fails, every page is the page of 450 letters and every text
    embeds to the same vector. *)
Definition sampleDb : Db :=
  {| content_chunks := map (fun c => {| chunk := c; created_at := 0 |}) sampleChunks;
     clock := 0 |}.

Definition sampleEnv : Env :=
  {| SERVICE_ROLE_KEY := "service-role-key";
     OPENAI_API_KEY := "openai-key";
     SUPABASE_URL_ENV := "https://example.supabase.co";
     jwt_ref := fun _ => None;
     fetch := fun _ _ => inr Ingest.samplePage;
     replaceMarkup := fun html => html;
     getEmbeddings := fun _ inputs => inr (map (fun _ => [Num 1]) inputs);
     delete_error := fun _ => None;
     insert_error := fun _ => None;
     select_error := fun _ => None;
     update_error := fun _ => None;
     gen_random_uuid := fun at_ k => ("new-" ++ string_of_Z (Z.of_nat at_)
                                      ++ "-" ++ string_of_Z (Z.of_nat k))%string;
     now := fun at_ => Z.of_nat at_ |}.

Definition sampleIngest : IngestRequest :=
  {| museum_id := Some (MuseumRow.id akg);
     urls := Some ["https://www.buffaloakg.org/visit"];
     replace_existing := true;
     chunk_size := None; chunk_overlap := None; limit := None |}.

Definition sampleBackfill : IngestRequest :=
  {| museum_id := Some (MuseumRow.id akg);
     urls := None;
     replace_existing := false;
     chunk_size := None; chunk_overlap := None; limit := Some 10%Z |}.

(** What the handler answers to a sample request, and the table
    afterwards. *)
Definition outcome (b : IngestRequest) : Response * Db :=
  match handler 1000 sampleEnv sampleDb (post b) with
  | Some o => o
  | None => (json 500 (Plain ""), sampleDb)
  end.

Definition afterIngest : Response * Db := Eval vm_compute in outcome sampleIngest.

Definition afterBackfill : Response * Db := Eval vm_compute in outcome sampleBackfill.

End Seed.

(* ================================================================== *)
(** ** frontend: the badge of a citation ([pct] and [label] of
    [CitationList]) *)

Module Badge.

(** [s * 100] in binary64: the product, rounded to the nearest double. *)
Definition times100 (s : number) : number :=
  match s with
  | Num q =>
      if (Qnum q =? 0)%Z then Num 0
      else
        match Parse.round_pos (Z.abs (Qnum q) * 100) (Z.pos (Qden q)) with
        | Some r => Num (if (Qnum q <? 0)%Z then Qred (- r) else r)
        | None => Inf (Qnum q <? 0)%Z
        end
  | NaN => NaN
  | Inf neg => Inf neg
  end.

(** [Math.round]: the closest integer, the greater one of two that are
    equally close. *)
Definition round (x : number) : number :=
  match x with
  | Num q => Num (inject_Z (Qfloor (q + (1 # 2))))
  | _ => x
  end.

Definition pct (s : number) : number := round (times100 s).

Definition label (p : number) : string :=
  if Number.ge p (Num 70) then "Strong"
  else if Number.ge p (Num 50) then "Good"
  else "Weak".

End Badge.

(* ================================================================== *)
(** ** The request that the form of [TicketRedeem] sends *)


(* ================================================================== *)
(** * Properties *)

(** ** The embedding on sample inputs *)

Example uuid_ok : isValidUuid "f817a6f8-8f99-4618-86a2-603d0b323eff" = true.
Proof. vm_compute. reflexivity. Qed.

Example uuid_upper_ok : isValidUuid "F817A6F8-8F99-4618-86A2-603D0B323EFF" = true.
Proof. vm_compute. reflexivity. Qed.

Example uuid_bad_version : isValidUuid "f817a6f8-8f99-0618-86a2-603d0b323eff" = false.
Proof. vm_compute. reflexivity. Qed.

Example uuid_empty : isValidUuid "" = false.
Proof. vm_compute. reflexivity. Qed.

Example today_sensitive : isTimeSensitive "What's showing today?" = true.
Proof. vm_compute. reflexivity. Qed.

Example todays_sensitive : isTimeSensitive "What are today's hours?" = true.
Proof. vm_compute. reflexivity. Qed.

Example known_not_sensitive : isTimeSensitive "Is the artist well known?" = false.
Proof. vm_compute. reflexivity. Qed.

Example mission_whole : hasWholePhrase "what is your mission?" "mission" = true.
Proof. vm_compute. reflexivity. Qed.

Example mission_in_admission : hasWholePhrase "how much is admission?" "mission" = false.
Proof. vm_compute. reflexivity. Qed.

Example founded_1862 :
  tryAnswerFromMuseumProfile "When was the museum founded?" (Some akg)
  = Some {| answer := "The museum was founded in 1862.";
            sources := [ {| Source.id := "museum_profile:f817a6f8-8f99-4618-86a2-603d0b323eff";
                            Source.source_url := Some "https://www.buffaloakg.org";
                            Source.similarity := Num 1 |} ] |}.
Proof. vm_compute. reflexivity. Qed.

Example where_located :
  option_map answer (tryAnswerFromMuseumProfile "Where is the museum located?" (Some akg))
  = Some "The museum is located at Buffalo, NY.".
Proof. vm_compute. reflexivity. Qed.

Example admission_falls_through :
  tryAnswerFromMuseumProfile "How much is admission?" (Some akg) = None.
Proof. vm_compute. reflexivity. Qed.

Example round_045 :
  Parse.decimal false 45 (-2) = Num (8106479329266893 # 18014398509481984).
Proof. vm_compute. reflexivity. Qed.

Example parse_08 : Parse.parseFloat " 0.8abc" = Parse.decimal false 8 (-1).
Proof. vm_compute. reflexivity. Qed.

Example parse_exp : Parse.parseFloat "-12.5e-1x" = Num (-5 # 4).
Proof. vm_compute. reflexivity. Qed.

Example parse_dot5 : Parse.parseFloat ".5" = Num (1 # 2).
Proof. vm_compute. reflexivity. Qed.

Example parse_dot : Parse.parseFloat "." = NaN.
Proof. vm_compute. reflexivity. Qed.

Example parse_5dot : Parse.parseFloat "5." = Num 5.
Proof. vm_compute. reflexivity. Qed.

Example parse_abc : Parse.parseFloat "abc" = NaN.
Proof. vm_compute. reflexivity. Qed.

Example parse_inf : Parse.parseFloat "-Infinity" = Inf true.
Proof. vm_compute. reflexivity. Qed.

Example parse_huge : Parse.parseFloat "1e400" = Inf false.
Proof. vm_compute. reflexivity. Qed.

Example parse_max : Parse.parseFloat "1.7976931348623157e308" =
  Num (inject_Z ((2 ^ 53 - 1) * 2 ^ 971)).
Proof. vm_compute. reflexivity. Qed.

Example parse_over : Parse.parseFloat "1.7976931348623159e308" = Inf false.
Proof. vm_compute. reflexivity. Qed.

Example dedupe_06_08 :
  CitationList.deduped
    [ src "a" (Some "https://www.buffaloakg.org") (Parse.decimal false 6 (-1));
      src "b" (Some "https://www.buffaloakg.org") (Parse.decimal false 8 (-1)) ]
  = [ src "b" (Some "https://www.buffaloakg.org") (Parse.decimal false 8 (-1)) ].
Proof. vm_compute. reflexivity. Qed.

Example escape_url : escapeRegex "a.b (c)" = text (chars "a" ++ [backslash] ++ chars ".b " ++ [backslash] ++ chars "(c" ++ [backslash] ++ chars ")").
Proof. vm_compute. reflexivity. Qed.

Example museum_directors_substring :
  hasAnyWholePhrase "list the museum directors" ["director"; "ceo"; "leadership"] = false
  /\ triggers Director "list the museum directors" = true.
Proof. vm_compute. split; reflexivity. Qed.

Example what_tournament_pattern :
  triggers CanonicalName "what tournament is on?" = true.
Proof. vm_compute. reflexivity. Qed.

Example match_chunks_sample :
  Sql.match_chunks sampleDistance sampleChunks (MuseumRow.id akg) [Num 0] 5
  = inr [ Sql.mkMatch "c2" "Parking is available." None "{}" (Num (3 # 4));
          Sql.mkMatch "c1" "The museum is open Tuesday through Sunday."
            (Some "https://www.buffaloakg.org") "{}" (Num (1 # 2)) ].
Proof. vm_compute. reflexivity. Qed.

Example match_chunks_negative_limit :
  Sql.match_chunks sampleDistance sampleChunks (MuseumRow.id akg) [Num 0] (-1)
  = inl "LIMIT must not be negative".
Proof. vm_compute. reflexivity. Qed.

Example handler_answers_from_strong_matches :
  let up := sampleUpstream
              [ row "c1" "The museum is open Tuesday through Sunday." (OfString "0.82");
                row "c2" "Parking is available." (OfNumber (Num (3 # 10)));
                row "c3" "Admission is free on first Fridays." (OfString "NaN") ] in
  let r := handler up (post (ask "What are the opening hours?")) in
  fst r = json 200 (AnswerBody
            {| answer := "The museum is open Tuesday through Sunday.";
               sources := [ src "c1" (Some "https://www.buffaloakg.org")
                                (Parse.decimal false 82 (-2)) ] |})
  /\ map is_llm_call (snd r) = [false; false; false; false; true].
Proof. vm_compute. split; reflexivity. Qed.

Example handler_missing_question :
  handler (sampleUpstream [])
    (post {| museum_id := Some (MuseumRow.id akg); question := Some "   "; match_count := None |})
  = (json 400 (ErrorBody "Missing question" None), []).
Proof. vm_compute. reflexivity. Qed.

Example requested_count_clamped :
  requestedMatchCountOf {| museum_id := None; question := None; match_count := Some (Num 25) |}
  = Num 10
  /\ rpcMatchCountOf (Num 3) = Num 10.
Proof. vm_compute. split; reflexivity. Qed.

Example founded_year_zero_counts_as_absent :
  tryAnswerFromMuseumProfile "When was the museum founded?"
    (Some (MuseumRow.mk "m" None None None None None None None None None (Some 0%Z) None None))
  = Some {| answer := refusal Founded; sources := [] |}.
Proof. vm_compute. reflexivity. Qed.

Example unknown_tenant_goes_to_retrieval :
  let r := handler (sampleUpstream [])
             (post {| museum_id := Some otherTenant;
                      question := Some "When was the museum founded?";
                      match_count := None |}) in
  fst r = json 200 (AnswerBody {| answer := GENERIC_REFUSAL; sources := [] |})
  /\ snd r = [ TenantLookup otherTenant;
               Embedding "When was the museum founded?";
               VectorSearch (Some [Num 0; Num 1]) (Num 10) otherTenant ].
Proof. vm_compute. split; reflexivity. Qed.

Example upstream_failure_is_500 :
  let up := sampleUpstream [] in
  let failing :=
    {| SERVICE_ROLE_KEY := SERVICE_ROLE_KEY up;
       OPENAI_API_KEY := OPENAI_API_KEY up;
       jwt_ref := jwt_ref up;
       museums_single := museums_single up;
       getEmbedding := fun _ => inl "Embeddings failed: 429";
       match_content_chunks := match_content_chunks up;
       content_chunks_in := content_chunks_in up;
       chatCompletion := chatCompletion up |} in
  handler failing (post (ask "Do you have a cloakroom?"))
  = (json 500 (ErrorBody "Internal server error" (Some "Embeddings failed: 429")),
     [ TenantLookup (MuseumRow.id akg); Embedding "Do you have a cloakroom?" ]).
Proof. vm_compute. reflexivity. Qed.

(** ** The table reading of the resolver is the source's chain of tests *)


(* ================================================================== *)
(** ** Characters, strings, occurrences *)

Lemma is_word_upper (c : ascii) : Chars.is_word (Chars.upper c) = Chars.is_word c.
Proof.
  destruct c as [[] [] [] [] [] [] [] []]; vm_compute; reflexivity.
Qed.

Lemma char_eq_word (a x : ascii) :
  char_eq true a x = true -> Chars.is_word x = Chars.is_word a.
Proof.
  unfold char_eq. intro H. apply Ascii.eqb_eq in H.
  rewrite <- (is_word_upper x), <- (is_word_upper a). now rewrite H.
Qed.

Lemma length_chars (s : string) : List.length (chars s) = String.length s.
Proof.
  induction s as [|c s IH]; simpl; [reflexivity|]. now rewrite IH.
Qed.

Lemma chars_text (l : list ascii) : chars (text l) = l.
Proof. apply list_ascii_of_string_of_list_ascii. Qed.

Lemma length_toLowerCase (s : string) :
  String.length (toLowerCase s) = String.length s.
Proof.
  unfold toLowerCase. rewrite <- length_chars, chars_text, length_map.
  apply length_chars.
Qed.

Lemma nth_error_skipn {A} (l : list A) (i k : nat) :
  nth_error (skipn i l) k = nth_error l (i + k).
Proof.
  revert l. induction i as [|i IH]; intros [|x l]; simpl; auto.
  now destruct k.
Qed.

(** A prefix match gives a character match at every index of the phrase. *)
Lemma prefix_by_nth (eqc : ascii -> ascii -> bool) (p l : list ascii) (k : nat) (a : ascii) :
  prefix_by eqc p l = true ->
  nth_error p k = Some a ->
  exists x, nth_error l k = Some x /\ eqc a x = true.
Proof.
  revert l k. induction p as [|b p IH]; intros l k Hp Hk.
  - destruct k; discriminate.
  - destruct l as [|y l]; simpl in Hp; [discriminate|].
    apply andb_true_iff in Hp as [Hb Hp].
    destruct k as [|k]; simpl in *.
    + injection Hk as <-. eauto.
    + eauto.
Qed.

Lemma occurs_at_nth (eqc : ascii -> ascii -> bool) (p l : list ascii) (i k : nat) (a : ascii) :
  occurs_at eqc p l i = true ->
  nth_error p k = Some a ->
  exists x, nth_error l (i + k) = Some x /\ eqc a x = true.
Proof.
  unfold occurs_at. intros H Hk. apply andb_true_iff in H as [_ H].
  rewrite <- nth_error_skipn. eapply prefix_by_nth; eauto.
Qed.

(* ================================================================== *)
(** ** What a match of the regular expressions used here looks like *)

Lemma in_ends_seq ic r1 r2 l i j :
  In j (ends ic (Seq r1 r2) l i) <->
  exists k, In k (ends ic r1 l i) /\ In j (ends ic r2 l k).
Proof. simpl. apply in_flat_map. Qed.

Lemma in_ends_alt ic r1 r2 l i j :
  In j (ends ic (Alt r1 r2) l i) <-> In j (ends ic r1 l i) \/ In j (ends ic r2 l i).
Proof. simpl. apply in_app_iff. Qed.

Lemma in_ends_bol ic l i j : In j (ends ic Bol l i) <-> i = 0%nat /\ j = i.
Proof.
  simpl. destruct (Nat.eqb_spec i 0); simpl; intuition (try congruence; try lia).
Qed.

Lemma in_ends_eol ic l i j :
  In j (ends ic Eol l i) <-> i = List.length l /\ j = i.
Proof.
  simpl. destruct (Nat.eqb_spec i (List.length l)); simpl;
    intuition (try congruence; try lia).
Qed.

Lemma in_ends_wordb ic l i j :
  In j (ends ic WordB l i) <-> boundary l i = true /\ j = i.
Proof.
  simpl. destruct (boundary l i); simpl; intuition (try congruence; try lia).
Qed.

Lemma in_ends_str ic s l i j :
  In j (ends ic (Str s) l i) <->
  occurs_at (char_eq ic) (chars s) l i = true /\ j = (i + String.length s)%nat.
Proof.
  simpl. destruct (occurs_at _ _ _ _); simpl; intuition (try congruence; try lia).
Qed.

Lemma matches_at_iff ic r l i :
  matches_at ic r l i = true <-> exists j, In j (ends ic r l i).
Proof.
  unfold matches_at. destruct (ends ic r l i) as [|j js]; split.
  - discriminate.
  - intros [j []].
  - intros _. exists j. now left.
  - reflexivity.
Qed.

Lemma test_iff ic r s :
  test ic r s = true <->
  exists i j, (i <= String.length s)%nat /\ In j (ends ic r (chars s) i).
Proof.
  unfold test, positions. rewrite existsb_exists. split.
  - intros (i & Hi & Hm). apply in_seq in Hi. apply matches_at_iff in Hm as [j Hj].
    exists i, j. rewrite <- length_chars. split; [lia|assumption].
  - intros (i & j & Hi & Hj). exists i. split.
    + apply in_seq. rewrite length_chars. lia.
    + apply matches_at_iff. eauto.
Qed.

(** A whole-phrase match is an occurrence of the lower-cased phrase that
    starts at the start of the question or at a word boundary and ends at a
    word boundary or at the end of the question. *)
Lemma quoted_escape (l : list ascii) :
  quoted (flat_map (fun c => if special c then [backslash; c] else [c]) l) = l.
Proof.
  induction l as [|c l IH]; [reflexivity|].
  cbn [flat_map]. destruct (special c) eqn:E.
  - cbn [app quoted]. rewrite Ascii.eqb_refl. now rewrite IH.
  - cbn [app quoted]. destruct (Ascii.eqb_spec c backslash) as [->|Hne].
    + discriminate E.
    + now rewrite IH.
Qed.

(** The pattern made from an escaped phrase matches the phrase itself. *)
Lemma literal_escapeRegex (s : string) : literal (escapeRegex s) = Str s.
Proof.
  unfold literal, escapeRegex. rewrite chars_text, quoted_escape.
  unfold text, chars. now rewrite string_of_list_ascii_of_string.
Qed.

Lemma hasWholePhrase_iff (q phrase : string) :
  hasWholePhrase q phrase = true <->
  exists i,
    occurs_at (char_eq true) (chars (toLowerCase phrase)) (chars q) i = true
    /\ (i = 0%nat \/ boundary (chars q) i = true)
    /\ (boundary (chars q) (i + String.length phrase) = true
        \/ (i + String.length phrase)%nat = String.length q).
Proof.
  unfold hasWholePhrase. cbv zeta. rewrite literal_escapeRegex, test_iff.
  cbn [seqs]. split.
  - intros (i & j & Hi & Hj).
    apply in_ends_seq in Hj as (k & Hk & Hj).
    apply in_ends_seq in Hj as (k' & Hk' & Hj).
    apply in_ends_str in Hk' as [Hocc ->].
    rewrite length_toLowerCase in Hj.
    assert (k = i) as ->.
    { apply in_ends_alt in Hk as [Hk|Hk];
        [apply in_ends_bol in Hk | apply in_ends_wordb in Hk]; tauto. }
    exists i. split; [assumption|]. split.
    + apply in_ends_alt in Hk as [Hk|Hk];
        [apply in_ends_bol in Hk | apply in_ends_wordb in Hk]; tauto.
    + apply in_ends_alt in Hj as [Hj|Hj];
        [apply in_ends_wordb in Hj | apply in_ends_eol in Hj];
        rewrite ?length_chars in Hj; tauto.
  - intros (i & Hocc & Hl & Hr).
    exists i, (i + String.length phrase)%nat. split.
    + unfold occurs_at in Hocc. apply andb_true_iff in Hocc as [Hi _].
      apply Nat.leb_le in Hi. now rewrite length_chars in Hi.
    + apply in_ends_seq. exists i. split.
      * apply in_ends_alt. destruct Hl as [->|Hl];
          [left; now apply in_ends_bol | right; now apply in_ends_wordb].
      * apply in_ends_seq. exists (i + String.length phrase)%nat. split.
        -- apply in_ends_str. now rewrite length_toLowerCase.
        -- apply in_ends_alt. destruct Hr as [Hr|Hr];
             [left; now apply in_ends_wordb
             | right; apply in_ends_eol; now rewrite length_chars].
Qed.

Lemma last_cons_default {A} (z : A) (l : list A) (x y : A) :
  last (z :: l) x = last (z :: l) y.
Proof.
  revert z. induction l as [|w l IH]; intro z; [reflexivity|].
  change (last (w :: l) x = last (w :: l) y). apply IH.
Qed.

Lemma nth_error_last {A} (x : A) (l : list A) :
  nth_error (x :: l) (List.length l) = Some (last l x).
Proof.
  revert x. induction l as [|y l IH]; intro x; [reflexivity|].
  cbn [List.length nth_error]. rewrite IH. f_equal.
  destruct l as [|z l]; [reflexivity|].
  change (last (z :: l) y = last (z :: l) x). apply last_cons_default.
Qed.

Lemma word_at_nth (l : list ascii) (i : nat) (x : ascii) :
  nth_error l i = Some x -> word_at l i = Chars.is_word x.
Proof. unfold word_at. now intros ->. Qed.

Lemma word_at_length (l : list ascii) (i : nat) :
  word_at l i = true -> (i < List.length l)%nat.
Proof.
  unfold word_at. destruct (nth_error l i) eqn:E; [|discriminate].
  intros _. apply nth_error_Some. congruence.
Qed.

(** A phrase that starts and ends with a word character is not matched as
    a whole phrase when each of its occurrences lies inside a longer word. *)
Lemma hasWholePhrase_inside (q phrase : string) :
  wordEnded phrase = true ->
  onlyInsideWords q phrase = true ->
  hasWholePhrase q phrase = false.
Proof.
  intros Hw Hin. destruct (hasWholePhrase q phrase) eqn:E; [exfalso|reflexivity].
  apply hasWholePhrase_iff in E as (i & Hocc & Hl & Hr).
  unfold wordEnded in Hw.
  destruct (chars (toLowerCase phrase)) as [|a rest] eqn:Ep; [discriminate|].
  apply andb_true_iff in Hw as [Ha Hz].
  assert (Hn : String.length phrase = S (List.length rest)).
  { rewrite <- length_toLowerCase, <- length_chars, Ep. reflexivity. }
  (* the characters of the question under the two ends of the phrase *)
  destruct (occurs_at_nth _ _ _ i 0 Hocc eq_refl) as (x & Hx & Hax).
  destruct (occurs_at_nth _ _ _ i (List.length rest) Hocc (nth_error_last a rest))
    as (z & Hz' & Haz).
  rewrite Nat.add_0_r in Hx.
  apply word_at_nth in Hx. rewrite (char_eq_word _ _ Hax), Ha in Hx.
  apply word_at_nth in Hz'. rewrite (char_eq_word _ _ Haz), Hz in Hz'.
  (* this occurrence is inside a word *)
  assert (Hi : In i (positions (chars q))).
  { unfold occurs_at in Hocc. apply andb_true_iff in Hocc as [Hi _].
    apply Nat.leb_le in Hi. apply in_seq. lia. }
  unfold onlyInsideWords in Hin. rewrite forallb_forall in Hin.
  specialize (Hin i Hi). rewrite ?Ep, Hocc in Hin. cbn [implb] in Hin.
  unfold insideWord in Hin. apply orb_true_iff in Hin as [Hb|Ha'].
  - destruct i as [|j]; [discriminate|].
    destruct Hl as [Hl|Hl]; [discriminate|].
    unfold boundary in Hl. rewrite Hb, Hx in Hl. discriminate.
  - rewrite Hn in Hr, Ha'.
    destruct Hr as [Hr|Hr].
    + replace (i + S (List.length rest))%nat with (S (i + List.length rest)) in Hr, Ha' by lia.
      unfold boundary in Hr. rewrite Ha', Hz' in Hr. discriminate.
    + apply word_at_length in Ha'. rewrite length_chars in Ha'. lia.
Qed.

(* ================================================================== *)
(** ** Whole-phrase triggers and substring triggers *)






(** ** "admission" is not "mission" *)

Lemma mission_in_admission_inside (q : string) :
  missionOnlyInAdmission q = true -> onlyInsideWords q "mission" = true.
Proof.
  unfold missionOnlyInAdmission, onlyInsideWords. rewrite !forallb_forall.
  intros H i Hi. specialize (H i Hi).
  change (chars (toLowerCase "mission")) with (chars "mission").
  destruct (occurs_at (char_eq true) (chars "mission") (chars q) i); [|reflexivity].
  cbn [implb] in *. apply andb_true_iff in H as [H2 Hocc].
  apply Nat.leb_le in H2.
  destruct (occurs_at_nth _ _ _ (i - 2) 1 Hocc eq_refl) as (x & Hx & Hdx).
  destruct i as [|j]; [lia|].
  replace (S j - 2 + 1)%nat with j in Hx by lia.
  unfold insideWord. rewrite (word_at_nth _ _ Hx), (char_eq_word _ _ Hdx).
  reflexivity.
Qed.

(** C7: a question that contains "admission", in which "mission" occurs
    only as the tail of "admission", and whose other mission-category
    triggers ("purpose", "goal") do not match, does not fire the mission
    category of the resolver. *)
Theorem admission_does_not_trigger_mission (questionRaw : string) :
  includes (toLowerCase questionRaw) "admission" = true ->
  missionOnlyInAdmission (toLowerCase questionRaw) = true ->
  hasWholePhrase (toLowerCase questionRaw) "purpose" = false ->
  hasWholePhrase (toLowerCase questionRaw) "goal" = false ->
  triggers Mission (toLowerCase questionRaw) = false.
Proof.
  intros _ Hm Hp Hg. cbn [triggers]. unfold hasAnyWholePhrase. cbn [existsb].
  rewrite Hp, Hg, (hasWholePhrase_inside _ "mission"); [reflexivity|reflexivity|].
  now apply mission_in_admission_inside.
Qed.

Lemma admission_does_not_trigger_mission_witness :
  triggers Mission (toLowerCase "How much is Admission for students?") = false.
Proof.
  apply admission_does_not_trigger_mission; vm_compute; reflexivity.
Defined.

(* ================================================================== *)
(** ** The handler, stage by stage *)

Ltac run_step := cbn [Run.bind Run.ret Run.throw Run.await Run.await_or_throw app].


Lemma tenantId_inv (b : RagRequest) (museumId : string) :
  tenantId (inr b) = Some museumId ->
  truthy (museum_id b) = Some museumId /\ isValidUuid museumId = true.
Proof.
  unfold tenantId. destruct (truthy (museum_id b)) as [i|]; [|discriminate].
  destruct (isValidUuid i) eqn:E; [|discriminate].
  intro H. injection H as <-. auto.
Qed.





(* ================================================================== *)
(** ** Validation of the tenant id *)




(* ================================================================== *)
(** ** Structured facts *)







(* ================================================================== *)
(** ** Time-sensitive questions *)



(* ================================================================== *)
(** ** Normalization of similarities *)








(* ================================================================== *)
(** ** The relevance gate *)

Lemma MIN_SIMILARITY_value :
  MIN_SIMILARITY = Num (8106479329266893 # 18014398509481984).
Proof. vm_compute. reflexivity. Qed.



Lemma requestedMatchCountOf_range (b : RagRequest) :
  exists q, requestedMatchCountOf b = Num q /\ 0 < q /\ q <= 10.
Proof.
  unfold requestedMatchCountOf, MAX_MATCH_COUNT, Number.gt.
  destruct (match_count b) as [[q| |neg]|]; cbn [Number.lt Num.min];
    try (exists 5; repeat split; reflexivity || discriminate).
  - destruct (Qle_bool q 0) eqn:E0; cbn [negb].
    + exists 5. repeat split; reflexivity || discriminate.
    + assert (H0 : 0 < q).
      { apply Qnot_le_lt. intro H. apply Qle_bool_iff in H. congruence. }
      cbn [Number.lt]. destruct (Qle_bool q 10) eqn:E10; cbn [negb].
      * exists q. apply Qle_bool_iff in E10. auto.
      * exists 10. repeat split; reflexivity || discriminate.
  - destruct neg; cbn [negb andb].
    + exists 5. repeat split; reflexivity || discriminate.
    + exists 10. repeat split; reflexivity || discriminate.
Qed.



Lemma in_firstn {A} (n : nat) (l : list A) (x : A) :
  In x (firstn n l) -> In x l.
Proof.
  revert l. induction n as [|n IH]; intros [|y l]; cbn [firstn In]; try tauto.
  intros [->|H]; auto.
Qed.




(* ================================================================== *)
(** ** Sorting *)

Section SortFacts.
Variable A : Type.
Variable after : A -> A -> bool.

Lemma insert_perm (x : A) (l : list A) : Permutation (insert after x l) (x :: l).
Proof.
  induction l as [|y l IH]; cbn [insert]; [reflexivity|].
  destruct (after x y); [|reflexivity].
  rewrite IH. apply perm_swap.
Qed.

Lemma sort_perm (l : list A) : Permutation (sort after l) l.
Proof.
  induction l as [|x l IH]; cbn [sort fold_right]; [reflexivity|].
  fold (sort after l). rewrite insert_perm. now constructor.
Qed.

Lemma in_sort (l : list A) (x : A) : In x (sort after l) <-> In x l.
Proof.
  split; apply Permutation_in; [apply sort_perm | symmetry; apply sort_perm].
Qed.

(** Sortedness, for elements in [P] on which [after] is the strict part of
    a total preorder [le]. *)
Variable P : A -> Prop.
Variable le : A -> A -> Prop.
Hypothesis le_of_not_after : forall x y, P x -> P y -> after x y = false -> le x y.
Hypothesis le_of_after : forall x y, P x -> P y -> after x y = true -> le y x.
Hypothesis le_trans : forall x y z, P x -> P y -> P z -> le x y -> le y z -> le x z.



End SortFacts.

(* ================================================================== *)
(** ** The vector search is scoped to the tenant *)

Lemma NoDup_map_inj {A B} (f : A -> B) (l : list A) (a b : A) :
  NoDup (map f l) -> In a l -> In b l -> f a = f b -> a = b.
Proof.
  induction l as [|x l IH]; cbn [map In]; [tauto|].
  intros Hnd Ha Hb Hf. inversion Hnd as [|? ? Hx Hnd']; subst.
  destruct Ha as [->|Ha], Hb as [->|Hb]; auto.
  - exfalso. apply Hx. rewrite Hf. now apply in_map.
  - exfalso. apply Hx. rewrite <- Hf. now apply in_map.
Qed.



(* ================================================================== *)
(** ** Order on finite numbers *)

Section NumberOrder.
Variables a b c : number.
Hypothesis fa : Number.isFinite a = true.
Hypothesis fb : Number.isFinite b = true.
Hypothesis fc : Number.isFinite c = true.






End NumberOrder.

(* ================================================================== *)
(** ** Facts about the JavaScript map *)

Section JsMapFacts.
Variable V : Type.
Implicit Types (m : JsMap.t V) (k : string) (v : V).










End JsMapFacts.

(* ================================================================== *)
(** ** Citation dedupe *)







Lemma sorted_head {A} (le : A -> A -> Prop) (h : A) (t : list A) (x : A) :
  (forall y, le y y) ->
  StronglySorted le (h :: t) -> In x (h :: t) -> le h x.
Proof.
  intros Hrefl Hs [<-|Hx]; [apply Hrefl|].
  inversion Hs as [|? ? _ Hall]; subst.
  rewrite Forall_forall in Hall. auto.
Qed.



(* ================================================================== *)
(** ** Further facts about the handler *)

Lemma in_ends_alts_str ic (l : list string) (s : list ascii) (i j : nat) :
  l <> [] ->
  In j (ends ic (alts (map Str l)) s i) <->
  exists m, In m l
            /\ occurs_at (char_eq ic) (chars m) s i = true
            /\ j = (i + String.length m)%nat.
Proof.
  induction l as [|a l IH]; [congruence|]. intros _.
  destruct l as [|b l].
  - cbn [map alts]. rewrite in_ends_str. split.
    + intros [H ->]. exists a. split; [now left|auto].
    + intros (m & [<-|[]] & H & ->). auto.
  - change (alts (map Str (a :: b :: l)))
      with (Alt (Str a) (alts (map Str (b :: l)))).
    rewrite in_ends_alt, in_ends_str, IH by discriminate. split.
    + intros [[H ->]|(m & Hm & H & ->)].
      * exists a. split; [now left|auto].
      * exists m. split; [now right|auto].
    + intros (m & [<-|Hm] & H & ->); [left; auto|right; eauto].
Qed.

(** A question is time-sensitive exactly when one of the recency markers
    occurs in it between two word boundaries, compared without case. *)
Lemma isTimeSensitive_iff (question : string) :
  isTimeSensitive question = true <->
  exists marker i,
    In marker recency_markers
    /\ occurs_at (char_eq true) (chars marker) (chars question) i = true
    /\ boundary (chars question) i = true
    /\ boundary (chars question) (i + String.length marker) = true.
Proof.
  unfold isTimeSensitive. rewrite test_iff. cbn [seqs]. split.
  - intros (i & j & _ & Hj).
    apply in_ends_seq in Hj as (k & Hk & Hj).
    apply in_ends_wordb in Hk as [Hb ->].
    apply in_ends_seq in Hj as (k' & Hk' & Hj).
    apply in_ends_alts_str in Hk' as (m & Hm & Hocc & ->); [|discriminate].
    apply in_ends_wordb in Hj as [Hb' _]. eauto 6.
  - intros (m & i & Hm & Hocc & Hb & Hb').
    exists i, (i + String.length m)%nat. split.
    + unfold occurs_at in Hocc. apply andb_true_iff in Hocc as [Hi _].
      apply Nat.leb_le in Hi. now rewrite length_chars in Hi.
    + apply in_ends_seq. exists i. split; [now apply in_ends_wordb|].
      apply in_ends_seq. exists (i + String.length m)%nat. split.
      * apply in_ends_alts_str; [discriminate|eauto].
      * now apply in_ends_wordb.
Qed.

(** Every tenant lookup and every vector search the handler makes carries
    the validated tenant id of the request. *)
Lemma handler_calls_own_tenant (up : Upstream) (req : Request) (c : call) :
  In c (snd (handler up req)) ->
  match c with
  | TenantLookup m | VectorSearch _ _ m => tenantId (req_json req) = Some m
  | _ => True
  end.
Proof.
  unfold handler. destruct (req_method req); [intros []| |intros []].
  unfold tryBlock.
  destruct ((SERVICE_ROLE_KEY up =? "")%string || (OPENAI_API_KEY up =? "")%string);
    [intros []|].
  destruct (req_json req) as [msg|b]; [intros []|].
  unfold answerQuestion, tenantId. cbv zeta.
  destruct (truthy (museum_id b)) as [museumId|]; [|intros []].
  destruct (isValidUuid museumId); cbn [negb]; [|intros []].
  destruct (questionOf b =? "")%string; [intros []|].
  unfold getSupabaseUrlFromJwt, tryGetMuseumRow.
  destruct (jwt_ref up (SERVICE_ROLE_KEY up)); run_step; [|intros []].
  destruct (tryAnswerFromMuseumProfile _ _); run_step.
  { cbn [snd In]. intros [<-|[]]. reflexivity. }
  unfold retrieve.
  destruct (getEmbedding up (questionOf b)) as [msg|e]; run_step.
  { cbn [snd In]. intros [<-|[<-|[]]]; reflexivity || exact I. }
  destruct (error (match_content_chunks up e _ museumId)); run_step.
  { cbn [snd In]. intros [<-|[<-|[<-|[]]]]; reflexivity || exact I. }
  unfold gateAndCompose. cbv zeta.
  destruct (isTimeSensitive _ && _); run_step.
  { cbn [snd In]. intros [<-|[<-|[<-|[]]]]; reflexivity || exact I. }
  destruct (List.length _ =? 0)%nat; run_step.
  { cbn [snd In]. intros [<-|[<-|[<-|[]]]]; reflexivity || exact I. }
  destruct (chatCompletion up _); run_step;
    cbn [snd In]; intros [<-|[<-|[<-|[<-|[<-|[]]]]]]; reflexivity || exact I.
Qed.

(* ================================================================== *)
(** * Further properties of the code *)

(** ** rag_chat: responses and upstream calls of the handler *)

(** X1: the handler answers with status 200, 400, 405 or 500 and nothing
    else, and the body is an error object exactly when the status is not
    200. *)
Theorem handler_status_codes (up : Upstream) (req : Request) :
  In (status (fst (handler up req))) [200; 400; 405; 500]%nat
  /\ isErrorBody (body (fst (handler up req)))
     = negb (status (fst (handler up req)) =? 200)%nat.
Proof.
  unfold handler. destruct (req_method req); [cbn; auto| |cbn; auto 6].
  unfold tryBlock.
  destruct ((SERVICE_ROLE_KEY up =? "")%string || (OPENAI_API_KEY up =? "")%string);
    [cbn; auto 6|].
  destruct (req_json req) as [msg|b]; [cbn; auto 6|].
  unfold answerQuestion. cbv zeta.
  destruct (truthy (museum_id b)) as [museumId|]; [|cbn; auto 6].
  destruct (isValidUuid museumId); cbn [negb]; [|cbn; auto 6].
  destruct (questionOf b =? "")%string; [cbn; auto 6|].
  unfold getSupabaseUrlFromJwt, tryGetMuseumRow.
  destruct (jwt_ref up (SERVICE_ROLE_KEY up)); run_step; [|cbn; auto 6].
  destruct (tryAnswerFromMuseumProfile _ _); run_step; [cbn; auto 6|].
  unfold retrieve.
  destruct (getEmbedding up (questionOf b)) as [msg|e]; run_step; [cbn; auto 6|].
  destruct (error (match_content_chunks up e _ museumId)); run_step; [cbn; auto 6|].
  unfold gateAndCompose. cbv zeta.
  destruct (isTimeSensitive _ && _); run_step; [cbn; auto 6|].
  destruct (List.length _ =? 0)%nat; run_step; [cbn; auto 6|].
  destruct (chatCompletion up _); run_step; cbn; auto 6.
Qed.

(** X2: the upstream calls of one request are an initial part of the
    sequence tenant lookup, embedding, vector search, source lookup, chat
    completion: each service is called at most once, in that order, and the
    language model is never called before the source lookup. *)
Theorem handler_calls_in_order (up : Upstream) (req : Request) :
  map stage (snd (handler up req)) = seq 0 (List.length (snd (handler up req)))
  /\ (List.length (snd (handler up req)) <= 5)%nat.
Proof.
  unfold handler. destruct (req_method req); [cbn; split; [reflexivity|lia]| |cbn; split; [reflexivity|lia]].
  unfold tryBlock.
  destruct ((SERVICE_ROLE_KEY up =? "")%string || (OPENAI_API_KEY up =? "")%string);
    [cbn; split; [reflexivity|lia]|].
  destruct (req_json req) as [msg|b]; [cbn; split; [reflexivity|lia]|].
  unfold answerQuestion. cbv zeta.
  destruct (truthy (museum_id b)) as [museumId|]; [|cbn; split; [reflexivity|lia]].
  destruct (isValidUuid museumId); cbn [negb]; [|cbn; split; [reflexivity|lia]].
  destruct (questionOf b =? "")%string; [cbn; split; [reflexivity|lia]|].
  unfold getSupabaseUrlFromJwt, tryGetMuseumRow.
  destruct (jwt_ref up (SERVICE_ROLE_KEY up)); run_step; [|cbn; split; [reflexivity|lia]].
  destruct (tryAnswerFromMuseumProfile _ _); run_step; [cbn; split; [reflexivity|lia]|].
  unfold retrieve.
  destruct (getEmbedding up (questionOf b)) as [msg|e]; run_step; [cbn; split; [reflexivity|lia]|].
  destruct (error (match_content_chunks up e _ museumId)); run_step; [cbn; split; [reflexivity|lia]|].
  unfold gateAndCompose. cbv zeta.
  destruct (isTimeSensitive _ && _); run_step; [cbn; split; [reflexivity|lia]|].
  destruct (List.length _ =? 0)%nat; run_step; [cbn; split; [reflexivity|lia]|].
  destruct (chatCompletion up _); run_step; cbn; (split; [reflexivity|lia]).
Qed.

(** X3: every tenant lookup and every vector search the handler makes
    carries the museum_id of the request body it serves, and that id has
    passed [isValidUuid]. *)
Theorem calls_carry_the_validated_tenant_id
  (up : Upstream) (req : Request) (c : call) :
  In c (snd (handler up req)) ->
  match c with
  | TenantLookup m | VectorSearch _ _ m =>
      exists b, req_json req = inr b
                /\ museum_id b = Some m /\ isValidUuid m = true
  | _ => True
  end.
Proof.
  intro H. apply handler_calls_own_tenant in H.
  assert (G : forall m, tenantId (req_json req) = Some m ->
                        exists b, req_json req = inr b
                                  /\ museum_id b = Some m /\ isValidUuid m = true).
  { intros m Hm. destruct (req_json req) as [msg|b]; [discriminate Hm|].
    exists b. apply tenantId_inv in Hm. destruct Hm as [Ht Hv].
    repeat split; auto.
    unfold truthy in Ht. destruct (museum_id b) as [s|]; [|discriminate].
    destruct (s =? "")%string; [discriminate|]. exact Ht. }
  destruct c; auto.
Qed.

Lemma calls_carry_the_validated_tenant_id_witness :
  let req := post (ask "Do you have a cloakroom?") in
  exists b, req_json req = inr b
            /\ museum_id b = Some (MuseumRow.id akg)
            /\ isValidUuid (MuseumRow.id akg) = true.
Proof.
  intro req.
  apply (@calls_carry_the_validated_tenant_id (sampleUpstream []) req
           (VectorSearch (Some [Num 0; Num 1]) (Num 10) (MuseumRow.id akg))).
  vm_compute. auto.
Defined.

(** The over-fetch (requested count, at least 5, plus 5, at most 10) is the
    constant 10. *)
Lemma rpcMatchCount_is_ten (b : RagRequest) :
  rpcMatchCountOf (requestedMatchCountOf b) = Num 10.
Proof.
  destruct (requestedMatchCountOf_range b) as (q & -> & H0 & H10).
  unfold rpcMatchCountOf, MAX_MATCH_COUNT, Num.max. cbn [Number.lt].
  destruct (Qle_bool 5 q) eqn:E5; cbn [negb].
  - unfold Num.add, Num.min. cbn [Number.lt].
    destruct (Qle_bool (Qred (q + 5)) 10) eqn:E; cbn [negb]; [|reflexivity].
    apply Qle_bool_iff in E5, E. rewrite Qred_correct in E.
    assert (Hq : q + 5 == 10) by lra.
    apply Qred_complete in Hq. rewrite Hq. reflexivity.
  - reflexivity.
Qed.

(** X4: whatever match_count the request carries, the handler asks the
    vector search for 10 rows: the over-fetch (requested count, at least 5,
    plus 5, at most 10) is the constant 10. *)
Theorem vector_search_always_asks_for_ten :
  (forall b : RagRequest, rpcMatchCountOf (requestedMatchCountOf b) = Num 10)
  /\ (forall (up : Upstream) (req : Request)
             (e : option vector) (k : number) (m : string),
        In (VectorSearch e k m) (snd (handler up req)) -> k = Num 10).
Proof.
  pose proof rpcMatchCount_is_ten as Hten.
  split; [exact Hten|].
  intros up req e k m. unfold handler.
  destruct (req_method req); [intros []| |intros []].
  unfold tryBlock.
  destruct ((SERVICE_ROLE_KEY up =? "")%string || (OPENAI_API_KEY up =? "")%string);
    [intros []|].
  destruct (req_json req) as [msg|b]; [intros []|].
  unfold answerQuestion. cbv zeta. rewrite Hten.
  destruct (truthy (museum_id b)) as [museumId|]; [|intros []].
  destruct (isValidUuid museumId); cbn [negb]; [|intros []].
  destruct (questionOf b =? "")%string; [intros []|].
  unfold getSupabaseUrlFromJwt, tryGetMuseumRow.
  destruct (jwt_ref up (SERVICE_ROLE_KEY up)); run_step; [|intros []].
  destruct (tryAnswerFromMuseumProfile _ _); run_step.
  { cbn [snd In]. intros [H|[]]. discriminate H. }
  unfold retrieve.
  destruct (getEmbedding up (questionOf b)) as [msg|e']; run_step.
  { cbn [snd In]. intros [H|[H|[]]]; discriminate H. }
  destruct (error (match_content_chunks up e' _ museumId)); run_step.
  { cbn [snd In]. intros [H|[H|[H|[]]]]; try discriminate H. now injection H. }
  unfold gateAndCompose. cbv zeta.
  destruct (isTimeSensitive _ && _); run_step.
  { cbn [snd In]. intros [H|[H|[H|[]]]]; try discriminate H. now injection H. }
  destruct (List.length _ =? 0)%nat; run_step.
  { cbn [snd In]. intros [H|[H|[H|[]]]]; try discriminate H. now injection H. }
  destruct (chatCompletion up _); run_step;
    cbn [snd In]; intros [H|[H|[H|[H|[H|[]]]]]]; try discriminate H; now injection H.
Qed.

Lemma vector_search_always_asks_for_ten_witness :
  Num 10 = Num 10.
Proof.
  apply (proj2 vector_search_always_asks_for_ten (sampleUpstream [])
           (post {| museum_id := Some (MuseumRow.id akg);
                    question := Some "Do you have a cloakroom?";
                    match_count := Some (Num 3) |})
           (Some [Num 0; Num 1]) (Num 10) (MuseumRow.id akg)).
  vm_compute. auto.
Defined.




(** ** rag_chat: what is rejected, and how failures surface *)





(** X7: when one of the two secrets is not set, every POST request gets
    status 500 "Server configuration error", whatever its body, and no
    upstream service is called. *)
Theorem missing_credentials_rejected (up : Upstream) (req : Request) :
  req_method req = POST ->
  SERVICE_ROLE_KEY up = ""%string \/ OPENAI_API_KEY up = ""%string ->
  handler up req = (json 500 (ErrorBody "Server configuration error" None), []).
Proof.
  intros Hm Hk. unfold handler, tryBlock. rewrite Hm.
  assert (E : (SERVICE_ROLE_KEY up =? "")%string || (OPENAI_API_KEY up =? "")%string = true).
  { destruct Hk as [->| ->]; cbn; [reflexivity|apply orb_true_r]. }
  rewrite E. reflexivity.
Qed.

Lemma missing_credentials_rejected_witness :
  let up := sampleUpstream sampleRows in
  let unset :=
    {| SERVICE_ROLE_KEY := SERVICE_ROLE_KEY up;
       OPENAI_API_KEY := "";
       jwt_ref := jwt_ref up;
       museums_single := museums_single up;
       getEmbedding := getEmbedding up;
       match_content_chunks := match_content_chunks up;
       content_chunks_in := content_chunks_in up;
       chatCompletion := chatCompletion up |} in
  handler unset (post (ask "What are the opening hours?"))
  = (json 500 (ErrorBody "Server configuration error" None), []).
Proof.
  intros up unset. apply missing_credentials_rejected; [reflexivity|right; reflexivity].
Defined.



(* ================================================================== *)
(** ** rag_chat: the regular-expression tests do not depend on letter case *)



Section LowerCase.
Variable l : list ascii.
Let l' := map Chars.lower l.



End LowerCase.









(* ================================================================== *)
(** ** rag_chat: the shape of an accepted tenant id *)

Lemma in_ends_rep ic n c l i j :
  In j (ends ic (Rep n c) l i) <->
  all_match ic c n (skipn i l) = true /\ j = (i + n)%nat.
Proof.
  simpl. destruct (all_match ic c n (skipn i l)); simpl;
    intuition (try congruence; try lia).
Qed.

Lemma in_ends_one ic c l i j :
  In j (ends ic (One c) l i) <->
  (exists x, nth_error l i = Some x /\ cmatch ic c x = true) /\ j = S i.
Proof.
  simpl. destruct (nth_error l i) as [x|].
  - destruct (cmatch ic c x) eqn:E; simpl.
    + split; [intros [<-|[]]; eauto|intros [_ ->]; now left].
    + split; [intros []|intros [(y & Hy & Hc) _]]. injection Hy as <-. congruence.
  - split; [intros []|intros [(y & Hy & _) _]; discriminate].
Qed.

Lemma all_match_iff ic c n l :
  all_match ic c n l = true <->
  forall k, (k < n)%nat -> exists x, nth_error l k = Some x /\ cmatch ic c x = true.
Proof.
  revert l. induction n as [|n IH]; intro l; cbn [all_match].
  - split; [intros _ k Hk; lia|reflexivity].
  - destruct l as [|x l].
    + split; [discriminate|]. intro H. destruct (H 0%nat) as (y & Hy & _); [lia|discriminate].
    + rewrite andb_true_iff, IH. split.
      * intros [Hx Hl] [|k] Hk; cbn [nth_error]; [eauto|apply Hl; lia].
      * intro H. split.
        -- destruct (H 0%nat) as (y & Hy & Hc); [lia|]. now injection Hy as <-.
        -- intros k Hk. apply (H (S k)). lia.
Qed.

Lemma occurs_at_dash (l : list ascii) (i : nat) :
  occurs_at (char_eq true) (chars "-") l i = true <-> nth_error l i = Some "-"%char.
Proof.
  unfold occurs_at. change (chars "-") with ["-"%char].
  rewrite andb_true_iff, Nat.leb_le. split.
  - intros [_ H]. rewrite <- (Nat.add_0_r i), <- nth_error_skipn.
    destruct (skipn i l) as [|y r]; cbn [prefix_by] in H; [discriminate|].
    rewrite andb_true_r in H. cbn [nth_error]. f_equal.
    destruct y as [[] [] [] [] [] [] [] []]; try discriminate H; reflexivity.
  - intro H. split.
    + apply Nat.lt_le_incl, nth_error_Some. congruence.
    + rewrite <- (Nat.add_0_r i), <- nth_error_skipn in H.
      destruct (skipn i l) as [|y r]; cbn [nth_error] in H; [discriminate|].
      injection H as ->. reflexivity.
Qed.

Lemma cmatch_hex (x : ascii) : cmatch true hex x = hexDigit x.
Proof. destruct x as [[] [] [] [] [] [] [] []]; vm_compute; reflexivity. Qed.

Lemma cmatch_version (x : ascii) :
  cmatch true (CRng "1" "5") x = Chars.between 49 53 x.
Proof. destruct x as [[] [] [] [] [] [] [] []]; vm_compute; reflexivity. Qed.

Lemma cmatch_variant (x : ascii) :
  cmatch true (COr (CChr "8") (COr (CChr "9") (COr (CChr "a") (CChr "b")))) x
  = existsb (Ascii.eqb x) (chars "89abAB").
Proof. destruct x as [[] [] [] [] [] [] [] []]; vm_compute; reflexivity. Qed.

Lemma uuidShape_pointwise (s : string) :
  uuidShape s = true <-> uuidPointwise (chars s).
Proof.
  unfold uuidShape, uuidPointwise.
  rewrite andb_true_iff, Nat.eqb_eq, forallb_forall, length_chars.
  split; intros [Hlen H]; (split; [assumption|]).
  - intros k Hk. specialize (H k). rewrite in_seq in H.
    destruct (nth_error (chars s) k) as [c|]; [exists c; split; auto; apply H; lia|].
    discriminate H. lia.
  - intros k Hk. apply in_seq in Hk. destruct (H k) as (c & -> & Hc); [lia|assumption].
Qed.

Lemma isValidUuid_pointwise (s : string) :
  isValidUuid s = true <-> uuidPointwise (chars s).
Proof.
  unfold isValidUuid, UUID_REGEX, uuidPointwise. rewrite test_iff.
  cbn [seqs]. set (l := chars s). split.
  - intros (i & j & _ & Hj).
    repeat match type of Hj with
           | In _ (ends _ (Seq _ _) _ _) =>
               let k := fresh "k" in
               let Hk := fresh "Hk" in
               apply in_ends_seq in Hj as (k & Hk & Hj)
           end.
    apply in_ends_bol in Hk as [-> ->].
    apply in_ends_rep in Hk0 as [A ->]. apply in_ends_str in Hk1 as [D1 ->].
    apply in_ends_rep in Hk2 as [B ->]. apply in_ends_str in Hk3 as [D2 ->].
    apply in_ends_one in Hk4 as [(v & Hv & Cv) ->].
    apply in_ends_rep in Hk5 as [C ->]. apply in_ends_str in Hk6 as [D3 ->].
    apply in_ends_one in Hk7 as [(w & Hw & Cw) ->].
    apply in_ends_rep in Hk8 as [D ->]. apply in_ends_str in Hk9 as [D4 ->].
    apply in_ends_rep in Hk10 as [E ->]. apply in_ends_eol in Hj as [Hlen _].
    cbn in Hlen, D1, D2, D3, D4, Hv, Hw.
    apply occurs_at_dash in D1, D2, D3, D4.
    rewrite cmatch_version in Cv. rewrite cmatch_variant in Cw.
    rewrite all_match_iff in A, B, C, D, E.
    split; [symmetry; exact Hlen|].
    intros k Hk.
    assert (hexAt : forall (n i : nat),
               (forall k, (k < n)%nat -> exists x,
                     nth_error (skipn i l) k = Some x /\ cmatch true hex x = true) ->
               forall k, (i <= k < i + n)%nat ->
                 exists c, nth_error l k = Some c /\ hexDigit c = true).
    { intros n i H k' Hk'. destruct (H (k' - i)%nat) as (x & Hx & Hc); [lia|].
      rewrite nth_error_skipn in Hx. replace (i + (k' - i))%nat with k' in Hx by lia.
      rewrite cmatch_hex in Hc. eauto. }
    do 36 (destruct k as [|k];
           [ first [ exists "-"%char; split; [assumption|reflexivity]
                   | exists v; split; [assumption|exact Cv]
                   | exists w; split; [assumption|exact Cw]
                   | apply (hexAt _ _ A); cbn; lia
                   | apply (hexAt _ _ B); cbn; lia
                   | apply (hexAt _ _ C); cbn; lia
                   | apply (hexAt _ _ D); cbn; lia
                   | apply (hexAt _ _ E); cbn; lia ]
           | ]).
    lia.
  - intros [Hlen H].
    assert (hexFrom : forall (n i : nat),
               (forall k, (i <= k < i + n)%nat ->
                          existsb (Nat.eqb k) [8; 13; 14; 18; 19; 23]%nat = false) ->
               (i + n <= 36)%nat ->
               all_match true hex n (skipn i l) = true).
    { intros n i Hfree Hle. apply all_match_iff. intros k Hk.
      destruct (H (i + k)%nat) as (c & Hc & Hu); [lia|].
      exists c. rewrite nth_error_skipn. split; [assumption|].
      rewrite cmatch_hex. specialize (Hfree (i + k)%nat ltac:(lia)).
      unfold uuidChar in Hu. cbn [existsb] in Hu, Hfree.
      repeat match type of Hfree with
             | (?a || ?b)%bool = false =>
                 apply orb_false_iff in Hfree as [? Hfree]
             end.
      repeat match goal with
             | E : (?a =? ?b)%nat = false |- _ => rewrite E in Hu; clear E
             end.
      exact Hu. }
    assert (dashAt : forall k, In k [8; 13; 18; 23]%nat ->
                               nth_error l k = Some "-"%char).
    { intros k Hk. destruct (H k) as (c & Hc & Hu).
      - cbn in Hk. lia.
      - rewrite Hc. f_equal. unfold uuidChar in Hu.
        replace (existsb (Nat.eqb k) [8; 13; 18; 23]%nat) with true in Hu.
        + now apply Ascii.eqb_eq in Hu.
        + symmetry. apply existsb_exists. exists k. split; [assumption|apply Nat.eqb_refl]. }
    destruct (H 14%nat ltac:(lia)) as (v & Hv & Cv).
    destruct (H 19%nat ltac:(lia)) as (w & Hw & Cw).
    cbn in Cv, Cw.
    exists 0%nat, 36%nat. split; [lia|].
    repeat (apply in_ends_seq; eexists; split).
    + apply in_ends_bol. split; reflexivity.
    + apply in_ends_rep. split; [|reflexivity]. apply hexFrom; [|lia].
      intros k Hk. do 8 (destruct k as [|k]; [reflexivity|]). lia.
    + apply in_ends_str. split; [|reflexivity]. apply occurs_at_dash, dashAt. cbn. auto.
    + apply in_ends_rep. split; [|reflexivity]. apply hexFrom; [|cbn; lia].
      intros k Hk. cbn in Hk. do 13 (destruct k as [|k]; [reflexivity || lia|]). lia.
    + apply in_ends_str. split; [|reflexivity]. apply occurs_at_dash, dashAt. cbn. auto.
    + apply in_ends_one. split; [|reflexivity]. exists v. split; [exact Hv|].
      now rewrite cmatch_version.
    + apply in_ends_rep. split; [|reflexivity]. apply hexFrom; [|cbn; lia].
      intros k Hk. cbn in Hk. do 18 (destruct k as [|k]; [reflexivity || lia|]). lia.
    + apply in_ends_str. split; [|reflexivity]. apply occurs_at_dash, dashAt. cbn. auto.
    + apply in_ends_one. split; [|reflexivity]. exists w. split; [exact Hw|].
      now rewrite cmatch_variant.
    + apply in_ends_rep. split; [|reflexivity]. apply hexFrom; [|cbn; lia].
      intros k Hk. cbn in Hk. do 23 (destruct k as [|k]; [reflexivity || lia|]). lia.
    + apply in_ends_str. split; [|reflexivity]. apply occurs_at_dash, dashAt. cbn. auto.
    + apply in_ends_rep. split; [|reflexivity]. apply hexFrom; [|cbn; lia].
      intros k Hk. cbn in Hk. do 36 (destruct k as [|k]; [reflexivity || lia|]). lia.
    + apply in_ends_eol. split; [|reflexivity]. cbn. fold l. lia.
Qed.

(** X10: [isValidUuid] accepts exactly the strings of 36 characters with
    hyphens at positions 8, 13, 18 and 23, a version digit 1 to 5 at
    position 14, a variant digit 8, 9, a or b (either case) at position 19
    and hexadecimal digits (either case) elsewhere. *)
Theorem isValidUuid_shape (value : string) :
  isValidUuid value = uuidShape value.
Proof.
  destruct (isValidUuid value) eqn:E1, (uuidShape value) eqn:E2; try reflexivity.
  - apply isValidUuid_pointwise, uuidShape_pointwise in E1. congruence.
  - apply uuidShape_pointwise, isValidUuid_pointwise in E2. congruence.
Qed.

(* ================================================================== *)
(** ** CitationList: what the dedupe keeps for any list *)

Lemma step_nonempty (m : JsMap.t Source.t) (s : Source.t) :
  CitationList.step m s <> [].
Proof.
  unfold CitationList.step.
  destruct (JsMap.get m (CitationList.key s)) as [existing|] eqn:E.
  - destruct (Number.gt _ _).
    + destruct m as [|[k v] m]; cbn [JsMap.set]; [discriminate|].
      destruct (k =? CitationList.key s)%string; discriminate.
    + destruct m; [discriminate E|discriminate].
  - destruct m as [|[k v] m]; cbn [JsMap.set]; [discriminate|].
    destruct (k =? CitationList.key s)%string; discriminate.
Qed.

Lemma fold_step_nonempty (rest : list Source.t) (m : JsMap.t Source.t) :
  m <> [] -> fold_left CitationList.step rest m <> [].
Proof.
  revert m. induction rest as [|s rest IH]; intros m Hm; [exact Hm|].
  cbn [fold_left]. apply IH, step_nonempty.
Qed.

Lemma step_values_from (seen : list Source.t) (m : JsMap.t Source.t) (s : Source.t) :
  (forall v, In v (JsMap.values m) -> In v seen) ->
  forall v, In v (JsMap.values (CitationList.step m s)) -> In v (s :: seen).
Proof.
  intros H v. unfold CitationList.step.
  assert (Hset : In v (JsMap.values (JsMap.set m (CitationList.key s) s)) ->
                 In v (s :: seen)).
  { clear -H. induction m as [|[k w] m IH]; cbn [JsMap.set JsMap.values map snd In].
    - intros [<-|[]]. now left.
    - destruct (k =? CitationList.key s)%string; cbn [map snd In].
      + intros [<-|Hv]; [now left|]. right. apply H. right. exact Hv.
      + intros [<-|Hv].
        * right. apply H. now left.
        * apply IH; [|exact Hv]. intros u Hu. apply H. now right. }
  destruct (JsMap.get m (CitationList.key s)); [destruct (Number.gt _ _)|]; auto.
  intro Hv. right. auto.
Qed.

Lemma grouped_values_from (rest seen : list Source.t) (m : JsMap.t Source.t) :
  (forall v, In v (JsMap.values m) -> In v seen) ->
  forall v, In v (JsMap.values (fold_left CitationList.step rest m)) ->
            In v (seen ++ rest).
Proof.
  revert seen m. induction rest as [|s rest IH]; intros seen m H v Hv.
  - rewrite app_nil_r. auto.
  - cbn [fold_left] in Hv.
    apply (IH (s :: seen)) in Hv.
    + apply in_app_or in Hv as [[<-|Hv]|Hv]; apply in_or_app; cbn; auto.
    + now apply step_values_from.
Qed.

(** X11: for every list of citations, finite similarities or not, the
    dedupe keeps exactly one citation of a non-empty list, and that citation
    is one of the list; only the empty list gives nothing.  Applying the
    dedupe to its own result changes nothing. *)
Theorem dedupe_keeps_one_of_the_list (sources : list Source.t) :
  (sources <> [] ->
   exists s, CitationList.deduped sources = [s] /\ In s sources)
  /\ (CitationList.deduped sources = [] <-> sources = [])
  /\ CitationList.deduped (CitationList.deduped sources)
     = CitationList.deduped sources.
Proof.
  assert (Hone : sources <> [] ->
                 exists s, CitationList.deduped sources = [s] /\ In s sources).
  { intro Hne. unfold CitationList.deduped.
    set (groups := JsMap.values (CitationList.grouped sources)).
    assert (Hg : groups <> []).
    { unfold groups, CitationList.grouped, JsMap.values.
      destruct sources as [|s0 rest]; [congruence|]. cbn [fold_left].
      pose proof (fold_step_nonempty rest (step_nonempty (@JsMap.empty _) s0)) as H.
      destruct (fold_left _ _ _); [congruence|discriminate]. }
    pose proof (sort_perm CitationList.bySimilarityDesc groups) as Hp.
    destruct (sort CitationList.bySimilarityDesc groups) as [|top rest] eqn:Es.
    - apply Permutation_nil in Hp. congruence.
    - exists top. split; [reflexivity|].
      assert (Hin : In top groups).
      { apply (Permutation_in _ Hp). now left. }
      apply (grouped_values_from sources [] (@JsMap.empty _)) in Hin; [exact Hin|].
      intros v []. }
  split; [exact Hone|]. split.
  - split.
    + intro E. destruct sources as [|s0 rest]; [reflexivity|].
      destruct Hone as (s & Hs & _); [discriminate|congruence].
    + intros ->. reflexivity.
  - destruct sources as [|s0 rest]; [reflexivity|].
    destruct Hone as (s & -> & _); [discriminate|].
    unfold CitationList.deduped, CitationList.grouped. cbn [fold_left].
    unfold CitationList.step. cbn [JsMap.get JsMap.empty JsMap.set JsMap.values map snd].
    reflexivity.
Qed.

Lemma dedupe_keeps_one_of_the_list_witness :
  let sources := [ src "c1" None NaN; src "c2" (Some "https://www.buffaloakg.org") (Num 1) ] in
  exists s, CitationList.deduped sources = [s] /\ In s sources.
Proof.
  intro sources. apply (proj1 (dedupe_keeps_one_of_the_list sources)).
  intro H. discriminate H.
Defined.

(* ================================================================== *)
(** ** redeem_ticket: hexadecimal rendering of a digest *)

Lemma chars_app (a b : string) : chars (a ++ b) = (chars a ++ chars b)%list.
Proof.
  unfold chars. induction a as [|c a IH]; [reflexivity|].
  simpl. f_equal. exact IH.
Qed.

Lemma chars_join_empty (l : list string) : chars (join "" l) = flat_map chars l.
Proof.
  induction l as [|x l IH]; [reflexivity|].
  destruct l as [|y l].
  - cbn [join flat_map]. now rewrite app_nil_r.
  - change (join "" (x :: y :: l)) with (x ++ "" ++ join "" (y :: l))%string.
    rewrite !chars_app, IH. reflexivity.
Qed.

Lemma hex_of_byte (b : Init.Byte.byte) :
  exists hi lo,
    chars (Redeem.padStart 2 "0" (Redeem.toString16 (Strings.Byte.to_N b))) = [hi; lo]
    /\ Redeem.byteOfHex hi lo = Some b
    /\ Redeem.lowerHex hi = true /\ Redeem.lowerHex lo = true.
Proof.
  destruct b; do 2 eexists; (split; [vm_compute; reflexivity|]);
    vm_compute; repeat split.
Qed.

(** X12: [bytesToHex] renders every byte as exactly two lower-case
    hexadecimal digits, the leading zero included, and the bytes can be
    read back from the text. *)
Theorem bytesToHex_two_digits_per_byte (bytes : list Init.Byte.byte) :
  String.length (Redeem.bytesToHex bytes) = (2 * List.length bytes)%nat
  /\ forallb Redeem.lowerHex (chars (Redeem.bytesToHex bytes)) = true
  /\ Redeem.hexToBytes (chars (Redeem.bytesToHex bytes)) = Some bytes.
Proof.
  rewrite <- length_chars. unfold Redeem.bytesToHex.
  rewrite chars_join_empty.
  induction bytes as [|b bytes (IH1 & IH2 & IH3)]; [repeat split; reflexivity|].
  cbn [map flat_map].
  destruct (hex_of_byte b) as (hi & lo & -> & Hb & Hh & Hl).
  cbn [app List.length forallb Redeem.hexToBytes].
  rewrite IH1, IH2, IH3, Hb, Hh, Hl. repeat split; try reflexivity. lia.
Qed.

(* ================================================================== *)
(** ** redeem_ticket: the handler *)













(* ================================================================== *)
(** ** White space at the ends of a string *)

Lemma text_chars (s : string) : text (chars s) = s.
Proof. apply string_of_list_ascii_of_string. Qed.














(* ================================================================== *)
(** ** TicketRedeem: the code sent to the backend *)








(* ================================================================== *)
(** ** ingest_seed: white space of the extracted text *)














(* ================================================================== *)
(** ** ingest_seed: [chunkText] *)









(** The page of 450 letters, cut with chunk size 250 and overlap 50:
    the letters 0 to 249 and 200 to 449. *)
Example chunkText_samplePage :
  Ingest.chunkText 3 Ingest.samplePage 250 50
  = Some [text (repeat "a"%char 250); text (repeat "a"%char 250)].
Proof. vm_compute. reflexivity. Qed.




(* ================================================================== *)
(** ** chat: the older edge function over [public.match_chunks] *)

(** What the RPC endpoint returns when it reports no error: the
    projections of at most [p_match_count] searchable passages of the
    museum. *)
Lemma rpc_inv (distance : vector -> vector -> number)
  (content_chunks : list Sql.content_chunk) (m : string) (q : vector) (k : number) :
  error (Chat.rpc distance content_chunks m q k) = None ->
  exists (x : Q) (chunks : list Sql.content_chunk),
    k = Num x
    /\ Qden (Qred x) = 1%positive
    /\ data (Chat.rpc distance content_chunks m q k)
       = Some (map (Sql.selected distance q) chunks)
    /\ Forall (Chat.searchable content_chunks (uuid_in m)) chunks
    /\ (List.length chunks <= Z.to_nat (Qnum (Qred x)))%nat.
Proof.
  unfold Chat.rpc. destruct k as [x| |neg]; try discriminate.
  destruct (Z.eqb_spec (Z.pos (Qden (Qred x))) 1) as [Hd|_]; [|discriminate].
  unfold Sql.match_chunks. destruct (Qnum (Qred x) <? 0)%Z; [discriminate|].
  intros _. cbn [data].
  match goal with
  | |- context [map _ (firstn ?n ?l)] => exists x, (firstn n l)
  end.
  repeat split; [congruence| |rewrite length_firstn; lia].
  rewrite Forall_forall. intros c Hc.
  apply in_firstn, in_sort, filter_In in Hc as [Hc Hw].
  unfold Sql.where_clause in Hw. apply andb_true_iff in Hw as [Hm He].
  apply String.eqb_eq in Hm. repeat split; auto.
  destruct (Sql.embedding c); [discriminate|discriminate He].
Qed.

Lemma top_k_bound (x : Q) :
  Number.lt (Num x) (Num 1) || Number.gt (Num x) (Num 20) = false ->
  Qden (Qred x) = 1%positive ->
  (Z.to_nat (Qnum (Qred x)) <= 20)%nat.
Proof.
  intros H Hd. apply orb_false_iff in H as [_ H].
  unfold Number.gt in H. cbn [Number.lt] in H. apply negb_false_iff in H.
  apply Qle_bool_iff in H. rewrite <- (Qred_correct x) in H.
  destruct (Qred x) as [n d]. cbn [Qden Qnum] in *. subst d.
  unfold Qle in H. cbn in H. lia.
Qed.

Lemma map_selected_id (distance : vector -> vector -> number) (q : vector)
  (chunks : list Sql.content_chunk) :
  map Chat.id (Chat.sourcesOf (map (Sql.selected distance q) chunks))
  = map Sql.id chunks.
Proof.
  unfold Chat.sourcesOf. rewrite !map_map. reflexivity.
Qed.

Lemma contextOf_selected (distance : vector -> vector -> number) (q : vector)
  (chunks : list Sql.content_chunk) :
  Chat.contextOf (map (Sql.selected distance q) chunks)
  = join (newline ++ newline)%string (map Sql.chunk_text chunks).
Proof.
  unfold Chat.contextOf. rewrite map_map. reflexivity.
Qed.

(** The steps after validation, when the answer is a success. *)
Lemma answer_ok (distance : vector -> vector -> number)
  (content_chunks : list Sql.content_chunk) (env : Chat.Env)
  (m question : string) (k : number) (reply : string)
  (sources : list Chat.source) (calls : list Chat.call) :
  Chat.servedFrom distance content_chunks env ->
  Number.lt k (Num 1) || Number.gt k (Num 20) = false ->
  Chat.answer env m question k = (calls, Chat.json 200 (Chat.AnswerBody reply sources)) ->
  exists e chunks,
    Forall (Chat.searchable content_chunks (uuid_in m)) chunks
    /\ (1 <= List.length chunks <= 20)%nat
    /\ map Chat.id sources = map Sql.id chunks
    /\ calls = [ Chat.Embedding question; Chat.MatchChunks m e k;
                 Chat.Completion
                   (join (newline ++ newline)%string (map Sql.chunk_text chunks))
                   question ].
Proof.
  intros Hserved Hk. unfold Chat.answer.
  destruct (Chat.generateEmbedding env question) as [msg|[e|]]; try discriminate.
  unfold Chat.matchChunks. cbv zeta. unfold Chat.servedFrom in Hserved.
  rewrite !Hserved.
  destruct (error (Chat.rpc distance content_chunks m e k)) eqn:Eerr; [discriminate|].
  destruct (rpc_inv _ _ _ _ _ Eerr) as (x & chunks & -> & Hd & -> & Hall & Hlen).
  destruct (Nat.eqb_spec (List.length (map (Sql.selected distance e) chunks)) 0)
    as [|Hne]; [discriminate|].
  rewrite length_map in Hne.
  destruct (Chat.generateChatCompletion env _ question); [discriminate|].
  intro H. injection H as <- <- <-.
  exists e, chunks. pose proof (top_k_bound x Hk Hd).
  rewrite map_selected_id, contextOf_selected.
  repeat split; auto; lia.
Qed.

(** X21: when the [chat] function is served from the table
    [content_chunks] through [public.match_chunks], every successful
    answer is built from passages of the museum named in the request and
    from nothing else: the context sent to the language model is the join
    of the texts of between 1 and 20 embedded passages of that museum, and
    the sources of the response are their ids, in the same order. *)
Theorem chat_answers_from_own_museum
  (distance : vector -> vector -> number)
  (content_chunks : list Sql.content_chunk) (env : Chat.Env) (req : Chat.Request)
  (reply : string) (sources : list Chat.source) (calls : list Chat.call) :
  Chat.servedFrom distance content_chunks env ->
  Chat.handler env req = (Chat.json 200 (Chat.AnswerBody reply sources), calls) ->
  exists b m question e k chunks,
    Chat.req_json req = inr b
    /\ Chat.museum_id b = Some m
    /\ Chat.question b = Some question
    /\ Forall (Chat.searchable content_chunks (uuid_in m)) chunks
    /\ (1 <= List.length chunks <= 20)%nat
    /\ map Chat.id sources = map Sql.id chunks
    /\ calls = [ Chat.Embedding question; Chat.MatchChunks m e k;
                 Chat.Completion
                   (join (newline ++ newline)%string (map Sql.chunk_text chunks))
                   question ].
Proof.
  intros Hserved. unfold Chat.handler.
  destruct (Chat.req_method req); try discriminate.
  unfold Chat.tryBlock.
  destruct (_ || _ || _)%bool; [discriminate|].
  destruct (Chat.req_json req) as [msg|b]; [discriminate|]. cbv zeta.
  destruct (Chat.museum_id b) as [m|] eqn:Em; cbn [truthy]; [|discriminate].
  destruct (m =? "")%string; [discriminate|].
  destruct (Chat.isValidUuid m); cbn [negb]; [|discriminate].
  destruct (Chat.question b) as [question|] eqn:Eq; cbn [truthy]; [|discriminate].
  destruct (question =? "")%string; [discriminate|].
  destruct (String.length (trim question) =? 0)%nat; [discriminate|].
  destruct (Chat.withDefault (Chat.top_k b)) as [k|]; [|discriminate].
  destruct (Number.lt k (Num 1) || Number.gt k (Num 20)) eqn:Hk; [discriminate|].
  destruct (Chat.answer env m question k) as [t response] eqn:Ea.
  intro H. injection H as -> ->.
  destruct (@answer_ok _ _ _ _ _ _ _ _ _ Hserved Hk Ea)
    as (e & chunks & H1 & H2 & H3 & H4).
  exists b, m, question, e, k, chunks. repeat split; auto; lia.
Qed.

Lemma chat_answers_from_own_museum_witness :
  exists b m question e k chunks,
    Chat.req_json (Chat.ask "When are you open?" (Chat.TopNumber (Num 1))) = inr b
    /\ Chat.museum_id b = Some m
    /\ Chat.question b = Some question
    /\ Forall (Chat.searchable sampleChunks (uuid_in m)) chunks
    /\ (1 <= List.length chunks <= 20)%nat
    /\ map Chat.id [Chat.mkSource "c2" (Num (3 # 4))] = map Sql.id chunks
    /\ [ Chat.Embedding "When are you open?";
         Chat.MatchChunks (MuseumRow.id akg) [Num 0] (Num 1);
         Chat.Completion "Parking is available." "When are you open?" ]
       = [ Chat.Embedding question; Chat.MatchChunks m e k;
           Chat.Completion
             (join (newline ++ newline)%string (map Sql.chunk_text chunks))
             question ].
Proof.
  apply (@chat_answers_from_own_museum sampleDistance sampleChunks Chat.sampleEnv
           (Chat.ask "When are you open?" (Chat.TopNumber (Num 1)))
           "The museum is open.").
  - intros m q k. reflexivity.
  - vm_compute. reflexivity.
Defined.

Ltac chat_leaf Hno :=
  cbn; repeat split; auto 10; try discriminate;
  try (let H := fresh in intro H; now apply Hno in H).

(** X22: the [chat] function answers with status 200, 400, 404, 405, 500
    or 502.  Its upstream calls are an initial part of the sequence
    embedding, match, completion.  With status 400, 405 or 500 no call was
    made; with 404 the embedding and the match were made and the language
    model was not called; a success other than the preflight made all
    three calls. *)
Theorem chat_calls_by_status (env : Chat.Env) (req : Chat.Request) :
  let response := fst (Chat.handler env req) in
  let calls := snd (Chat.handler env req) in
  In (Chat.status response) [200; 400; 404; 405; 500; 502]%nat
  /\ map Chat.stage calls = seq 0 (List.length calls)
  /\ (In (Chat.status response) [400; 405; 500]%nat -> calls = [])
  /\ (Chat.status response = 404%nat -> List.length calls = 2%nat)
  /\ (Chat.status response = 200%nat ->
      Chat.body response = Chat.Plain "ok" /\ calls = []
      \/ List.length calls = 3%nat).
Proof.
  cbv zeta. unfold Chat.handler.
  assert (Hno : forall n : nat, In n [400; 405; 500]%nat ->
                                n <> 404%nat /\ n <> 502%nat /\ n <> 200%nat).
  { intros n [<-|[<-|[<-|[]]]]; repeat split; discriminate. }
  destruct (Chat.req_method req); [chat_leaf Hno| |chat_leaf Hno].
  unfold Chat.tryBlock.
  destruct (_ || _ || _)%bool; [chat_leaf Hno|].
  destruct (Chat.req_json req) as [msg|b]; [chat_leaf Hno|].
  cbv zeta.
  destruct (truthy (Chat.museum_id b)) as [m|]; [|chat_leaf Hno].
  destruct (Chat.isValidUuid m); cbn [negb]; [|chat_leaf Hno].
  destruct (truthy (Chat.question b)) as [question|]; [|chat_leaf Hno].
  destruct (String.length (trim question) =? 0)%nat; [chat_leaf Hno|].
  destruct (Chat.withDefault (Chat.top_k b)) as [k|]; [|chat_leaf Hno].
  destruct (Number.lt k (Num 1) || Number.gt k (Num 20)); [chat_leaf Hno|].
  unfold Chat.answer.
  destruct (Chat.generateEmbedding env question) as [msg|[e|]];
    [chat_leaf Hno| |chat_leaf Hno].
  unfold Chat.matchChunks. cbv zeta.
  destruct (error (Chat.rpc_match_chunks env m e k)); [chat_leaf Hno|].
  destruct (List.length _ =? 0)%nat; [chat_leaf Hno|].
  destruct (Chat.generateChatCompletion env _ question); chat_leaf Hno.
Qed.

Lemma chat_calls_by_status_witness :
  List.length (snd (Chat.handler Chat.sampleEnv
                      (Chat.ask "When are you open?" (Chat.TopNumber (Num 0)))))
  = 0%nat.
Proof.
  rewrite (proj1 (proj2 (proj2 (chat_calls_by_status Chat.sampleEnv
                   (Chat.ask "When are you open?" (Chat.TopNumber (Num 0))))))).
  - reflexivity.
  - vm_compute. auto.
Defined.




Lemma uuidChar_hex (k : nat) (c : ascii) :
  uuidChar k c = true ->
  existsb (Nat.eqb k) [8; 13; 18; 23]%nat = false ->
  hexDigit c = true.
Proof.
  unfold uuidChar. intros H Hd. rewrite Hd in H.
  destruct (k =? 14)%nat;
    [destruct c as [[] [] [] [] [] [] [] []]; vm_compute in H |- *; congruence|].
  destruct (k =? 19)%nat; [|exact H].
  destruct c as [[] [] [] [] [] [] [] []]; vm_compute in H |- *; congruence.
Qed.

(** X24: the UUID test of the [chat] function is looser than the one of
    rag_chat: it accepts every id that rag_chat accepts, and also ids
    without a version and variant digit, such as the nil UUID. *)
Theorem chat_uuid_test_is_looser :
  (forall s : string, isValidUuid s = true -> Chat.isValidUuid s = true)
  /\ Chat.isValidUuid Chat.nilUuid = true
  /\ isValidUuid Chat.nilUuid = false.
Proof.
  split; [|split; vm_compute; reflexivity].
  intros s Hs. apply isValidUuid_pointwise in Hs as [Hlen H].
  unfold Chat.isValidUuid, Chat.UUID_REGEX. rewrite test_iff.
  cbn [seqs]. set (l := chars s) in *.
  assert (hexFrom : forall (n i : nat),
             (forall k, (i <= k < i + n)%nat ->
                        existsb (Nat.eqb k) [8; 13; 18; 23]%nat = false) ->
             (i + n <= 36)%nat ->
             all_match true hex n (skipn i l) = true).
  { intros n i Hfree Hle. apply all_match_iff. intros k Hk.
    destruct (H (i + k)%nat) as (c & Hc & Hu); [lia|].
    exists c. rewrite nth_error_skipn. split; [assumption|].
    rewrite cmatch_hex. apply (uuidChar_hex _ _ Hu). apply Hfree. lia. }
  assert (dashAt : forall k, In k [8; 13; 18; 23]%nat ->
                             nth_error l k = Some "-"%char).
  { intros k Hk. destruct (H k) as (c & Hc & Hu).
    - cbn in Hk. lia.
    - rewrite Hc. f_equal. unfold uuidChar in Hu.
      replace (existsb (Nat.eqb k) [8; 13; 18; 23]%nat) with true in Hu.
      + now apply Ascii.eqb_eq in Hu.
      + symmetry. apply existsb_exists. exists k. split; [assumption|apply Nat.eqb_refl]. }
  exists 0%nat, 36%nat. split; [lia|].
  repeat (apply in_ends_seq; eexists; split).
  + apply in_ends_bol. split; reflexivity.
  + apply in_ends_rep. split; [|reflexivity]. apply hexFrom; [|lia].
    intros k Hk. do 8 (destruct k as [|k]; [reflexivity|]). lia.
  + apply in_ends_str. split; [|reflexivity]. apply occurs_at_dash, dashAt. cbn. auto.
  + apply in_ends_rep. split; [|reflexivity]. apply hexFrom; [|cbn; lia].
    intros k Hk. cbn in Hk. do 13 (destruct k as [|k]; [reflexivity || lia|]). lia.
  + apply in_ends_str. split; [|reflexivity]. apply occurs_at_dash, dashAt. cbn. auto.
  + apply in_ends_rep. split; [|reflexivity]. apply hexFrom; [|cbn; lia].
    intros k Hk. cbn in Hk. do 18 (destruct k as [|k]; [reflexivity || lia|]). lia.
  + apply in_ends_str. split; [|reflexivity]. apply occurs_at_dash, dashAt. cbn. auto.
  + apply in_ends_rep. split; [|reflexivity]. apply hexFrom; [|cbn; lia].
    intros k Hk. cbn in Hk. do 23 (destruct k as [|k]; [reflexivity || lia|]). lia.
  + apply in_ends_str. split; [|reflexivity]. apply occurs_at_dash, dashAt. cbn. auto.
  + apply in_ends_rep. split; [|reflexivity]. apply hexFrom; [|cbn; lia].
    intros k Hk. cbn in Hk. do 36 (destruct k as [|k]; [reflexivity || lia|]). lia.
  + apply in_ends_eol. split; [|reflexivity]. cbn. fold l. lia.
Qed.

Lemma chat_uuid_test_is_looser_witness :
  Chat.isValidUuid (MuseumRow.id akg) = true.
Proof.
  apply (proj1 chat_uuid_test_is_looser (MuseumRow.id akg)).
  vm_compute. reflexivity.
Defined.

(* ================================================================== *)
(** ** ingest_seed: the handler *)
















(** The sample ingest replaces the three passages of the museum by the
    one chunk of the page and keeps the passage of the other museum. *)
Example afterIngest_sample :
  Seed.body (fst Seed.afterIngest) = Seed.Ingested 1 1 1 []
  /\ map Seed.rid (Seed.content_chunks (snd Seed.afterIngest)) = ["x1"; "new-3-0"]%string.
Proof. vm_compute. split; reflexivity. Qed.






(* ------------------------------------------------------------------ *)

Lemma clampLimit_range (limit : option Z) :
  (1 <= Seed.clampLimit limit <= 200)%Z.
Proof.
  unfold Seed.clampLimit. destruct limit as [l|]; [|lia].
  destruct (Z.ltb_spec 0 l); lia.
Qed.

Lemma backfilled_rid (m : string) (before after : Seed.row) :
  Seed.backfilled m before after -> Seed.rid after = Seed.rid before.
Proof. intros [->|(_ & e & ->)]; reflexivity. Qed.

Lemma Forall2_map_right {A B} (R R' : A -> B -> Prop) (f : B -> B)
  (l : list A) (l' : list B) :
  Forall2 R l l' ->
  (forall x y, In x l -> R x y -> R' x (f y)) ->
  Forall2 R' l (map f l').
Proof.
  induction 1 as [|x y l l' Hxy _ IH]; intro Hf; [constructor|].
  cbn [map]. constructor.
  - apply Hf; [now left|exact Hxy].
  - apply IH. intros a b' Ha. apply Hf. now right.
Qed.

Lemma updateChunkEmbedding_spec (env : Seed.Env) (m : string) (table : list Seed.row)
  (db db' : Seed.Db) (c : Seed.row) (e : vector) (thrown : option string) :
  NoDup (map Seed.rid table) ->
  In c table -> Seed.missing m c = true ->
  Forall2 (Seed.backfilled m) table (Seed.content_chunks db) ->
  Seed.updateChunkEmbedding env db (Sql.id (Seed.chunk c)) e = (db', thrown) ->
  Forall2 (Seed.backfilled m) table (Seed.content_chunks db').
Proof.
  intros Hnd Hc Hmiss Hinv. unfold Seed.updateChunkEmbedding.
  destruct (Seed.update_error env (Seed.clock db)).
  { intro H. injection H as <- _. exact Hinv. }
  intro H. injection H as <- _. cbn [Seed.content_chunks Seed.tick Seed.store].
  eapply Forall2_map_right; [exact Hinv|]. intros r0 r Hr0 HR.
  destruct (String.eqb_spec (Sql.id (Seed.chunk r)) (Sql.id (Seed.chunk c))) as [Hid|];
    [|exact HR].
  assert (r0 = c).
  { apply (NoDup_map_inj Seed.rid table); auto.
    rewrite <- (backfilled_rid HR). exact Hid. }
  subst r0. right. split; [exact Hmiss|]. exists e.
  destruct HR as [->|(_ & e0 & ->)]; reflexivity.
Qed.

Lemma updateAll_spec (env : Seed.Env) (m : string) (table : list Seed.row) :
  NoDup (map Seed.rid table) ->
  forall (chunks : list Seed.row) (embeddings : list vector) (db db' : Seed.Db)
         (n : nat) (r : string + nat),
    (forall c, In c chunks -> In c table /\ Seed.missing m c = true) ->
    Forall2 (Seed.backfilled m) table (Seed.content_chunks db) ->
    Seed.updateAll env db chunks embeddings n = (db', r) ->
    Forall2 (Seed.backfilled m) table (Seed.content_chunks db')
    /\ forall k, r = inr k ->
                 k = (n + Nat.min (List.length chunks) (List.length embeddings))%nat.
Proof.
  intro Hnd. induction chunks as [|c chunks IH];
    intros embeddings db db' n r Hin Hinv H.
  - cbn in H. injection H as <- <-. split; [exact Hinv|].
    intros k Hk. injection Hk as <-. cbn. lia.
  - destruct embeddings as [|e embeddings].
    { cbn in H. injection H as <- <-. split; [exact Hinv|].
      intros k Hk. injection Hk as <-. cbn. lia. }
    cbn [Seed.updateAll] in H.
    destruct (Seed.updateChunkEmbedding env db (Sql.id (Seed.chunk c)) e)
      as [db1 [msg|]] eqn:E.
    + injection H as <- <-. split; [|discriminate].
      destruct (Hin c (or_introl eq_refl)) as [Hc Hmiss].
      exact (updateChunkEmbedding_spec env db c e Hnd Hc Hmiss Hinv E).
    + destruct (Hin c (or_introl eq_refl)) as [Hc Hmiss].
      pose proof (updateChunkEmbedding_spec env db c e Hnd Hc Hmiss Hinv E) as Hinv1.
      apply IH in H as [H1 H2]; [|intros c' Hc'; apply Hin; now right|exact Hinv1].
      split; [exact H1|]. intros k Hk. rewrite (H2 k Hk). cbn [List.length]. lia.
Qed.

Lemma Forall2_refl_backfilled (m : string) (table : list Seed.row) :
  Forall2 (Seed.backfilled m) table table.
Proof. induction table; constructor; [now left|assumption]. Qed.

Ltac backfill_leaf :=
  cbn; repeat split; auto; try discriminate;
  try (match goal with
       | H : Seed.Updated _ = Seed.Updated _ |- _ => injection H as <-
       end; lia || reflexivity).

(** X27: a backfill (no urls) changes nothing but embeddings: with [id]
    the primary key, every row afterwards is the row before, or a row of
    the museum of the request that had no embedding and has one now.  It
    reports at most 200 rows updated, whatever [limit] says, and the
    answer 502 "Embedding count mismatch" leaves the table as it was. *)
Theorem backfill_embeds_only_missing_rows_of_the_museum
  (fuel : nat) (env : Seed.Env) (db db' : Seed.Db) (b : Seed.IngestRequest)
  (m : string) (response : Seed.Response) :
  NoDup (map Seed.rid (Seed.content_chunks db)) ->
  Seed.museum_id b = Some m ->
  Seed.urls b = None \/ Seed.urls b = Some [] ->
  Seed.handler fuel env db (Seed.post b) = Some (response, db') ->
  Forall2 (Seed.backfilled (uuid_in m)) (Seed.content_chunks db) (Seed.content_chunks db')
  /\ (forall n, Seed.body response = Seed.Updated n ->
                Seed.status response = 200%nat
                /\ (n <= 200)%nat
                /\ (Z.of_nat n <= Seed.clampLimit (Seed.limit b))%Z)
  /\ (Seed.status response = 502%nat ->
      Seed.content_chunks db' = Seed.content_chunks db).
Proof.
  intros Hnd Hm Hurls.
  unfold Seed.handler, Seed.post, Seed.tryBlock.
  cbn [Seed.req_method Seed.req_json].
  pose proof (Forall2_refl_backfilled (uuid_in m) (Seed.content_chunks db)) as Hrefl.
  destruct (_ || _)%bool.
  { intro H. injection H as <- <-. backfill_leaf. }
  destruct (Seed.getSupabaseUrl env).
  { intro H. injection H as <- <-. backfill_leaf. }
  rewrite Hm. cbn [truthy].
  destruct (m =? "")%string.
  { intro H. injection H as <- <-. backfill_leaf. }
  destruct (isValidUuid m); cbn [negb].
  2:{ intro H. injection H as <- <-. backfill_leaf. }
  assert (Hmode : match Seed.urls b with
                  | Some (url :: rest) =>
                      Seed.fullIngest fuel env db m b (url :: rest)
                  | _ => Some (Seed.backfill env db m b)
                  end = Some (Seed.backfill env db m b)).
  { destruct Hurls as [->| ->]; reflexivity. }
  rewrite Hmode. clear Hmode.
  unfold Seed.backfill. cbv zeta. unfold Seed.getChunksWithoutEmbedding.
  destruct (Seed.select_error env (Seed.clock db)).
  { intro H. injection H as <- <-. backfill_leaf. }
  set (chunks := firstn _ _).
  assert (Hchunks : forall c, In c chunks ->
                              In c (Seed.content_chunks db)
                              /\ Seed.missing (uuid_in m) c = true).
  { intros c Hc. unfold chunks in Hc.
    apply in_firstn, in_sort, filter_In in Hc. exact Hc. }
  assert (Hlen : (Z.of_nat (List.length chunks) <= Seed.clampLimit (Seed.limit b))%Z).
  { unfold chunks. rewrite length_firstn.
    pose proof (clampLimit_range (Seed.limit b)). lia. }
  pose proof (clampLimit_range (Seed.limit b)) as Hclamp.
  destruct (List.length chunks =? 0)%nat.
  { intro H. injection H as <- <-. backfill_leaf. }
  destruct (Seed.getEmbeddings env _ _) as [msg|embeddings].
  { intro H. injection H as <- <-. backfill_leaf. }
  destruct (Nat.eqb_spec (List.length embeddings) (List.length chunks)) as [Heq|Hneq];
    cbn [negb].
  2:{ intro H. injection H as <- <-. backfill_leaf. }
  destruct (Seed.updateAll env _ chunks embeddings 0) as [db2 r] eqn:E.
  apply (updateAll_spec env Hnd chunks embeddings _ 0 Hchunks) in E as [H1 H2];
    [|exact Hrefl].
  destruct r as [msg|k]; intro H; injection H as <- <-.
  - backfill_leaf.
  - specialize (H2 k eq_refl). backfill_leaf.
Qed.

Lemma backfill_embeds_only_missing_rows_of_the_museum_witness :
  Forall2 (Seed.backfilled (uuid_in (MuseumRow.id akg)))
    (Seed.content_chunks Seed.sampleDb)
    (Seed.content_chunks (snd Seed.afterBackfill)).
Proof.
  apply (proj1 (@backfill_embeds_only_missing_rows_of_the_museum 0 Seed.sampleEnv
                  Seed.sampleDb (snd Seed.afterBackfill) Seed.sampleBackfill
                  (MuseumRow.id akg) (fst Seed.afterBackfill)
                  ltac:(vm_compute; repeat constructor; cbn; intuition discriminate)
                  eq_refl (or_introl eq_refl) ltac:(vm_compute; reflexivity))).
Defined.

(** The sample backfill embeds the one passage of the museum that had no
    embedding. *)
Example afterBackfill_sample :
  Seed.body (fst Seed.afterBackfill) = Seed.Updated 1
  /\ map (fun r => (Seed.rid r, Sql.embedding (Seed.chunk r)))
       (Seed.content_chunks (snd Seed.afterBackfill))
     = [ ("c1", Some [Num (1 # 2)]); ("x1", Some [Num 0]);
         ("c2", Some [Num (1 # 4)]); ("c3", Some [Num 1]) ]%string.
Proof. vm_compute. split; reflexivity. Qed.

Lemma updateChunkEmbedding_sets (env : Seed.Env) (db db' : Seed.Db) (id : string)
  (e : vector) (done : list string) :
  (forall r, In r (Seed.content_chunks db) -> In (Seed.rid r) done ->
             Sql.embedding (Seed.chunk r) <> None) ->
  Seed.updateChunkEmbedding env db id e = (db', None) ->
  forall r, In r (Seed.content_chunks db') -> In (Seed.rid r) (id :: done) ->
            Sql.embedding (Seed.chunk r) <> None.
Proof.
  intros Hdone. unfold Seed.updateChunkEmbedding.
  destruct (Seed.update_error env (Seed.clock db)); [discriminate|].
  intro H. injection H as <-. cbn [Seed.content_chunks Seed.tick Seed.store].
  intros r Hr Hid. apply in_map_iff in Hr as (r0 & <- & Hr0).
  destruct (String.eqb_spec (Sql.id (Seed.chunk r0)) id) as [Heq|Hne];
    [discriminate|].
  destruct Hid as [Hid|Hid]; [now elim Hne|]. now apply Hdone.
Qed.

Lemma updateAll_sets (env : Seed.Env) :
  forall (chunks : list Seed.row) (embeddings : list vector) (db db' : Seed.Db)
         (n k : nat) (done : list string),
    List.length embeddings = List.length chunks ->
    (forall r, In r (Seed.content_chunks db) -> In (Seed.rid r) done ->
               Sql.embedding (Seed.chunk r) <> None) ->
    Seed.updateAll env db chunks embeddings n = (db', inr k) ->
    forall r, In r (Seed.content_chunks db') ->
              In (Seed.rid r) (done ++ map Seed.rid chunks) ->
              Sql.embedding (Seed.chunk r) <> None.
Proof.
  induction chunks as [|c chunks IH]; intros embeddings db db' n k done Hlen Hdone H.
  - destruct embeddings; [|discriminate Hlen]. cbn in H. injection H as <- _.
    cbn [map]. rewrite app_nil_r. exact Hdone.
  - destruct embeddings as [|e embeddings]; [discriminate Hlen|].
    cbn [Seed.updateAll] in H.
    destruct (Seed.updateChunkEmbedding env db (Sql.id (Seed.chunk c)) e)
      as [db1 [msg|]] eqn:E; [discriminate H|].
    pose proof (@updateChunkEmbedding_sets env db db1 _ e done Hdone E) as Hdone1.
    intros r Hr Hid.
    apply (IH embeddings db1 db' (S n) k (Sql.id (Seed.chunk c) :: done));
      [now injection Hlen|exact Hdone1|exact H|exact Hr|].
    cbn [map] in Hid. apply in_app_or in Hid as [Hid|[Hid|Hid]].
    + apply in_or_app. left. now right.
    + apply in_or_app. left. now left.
    + apply in_or_app. now right.
Qed.

Lemma Forall2_in_right {A B} (R : A -> B -> Prop) (l : list A) (l' : list B) (y : B) :
  Forall2 R l l' -> In y l' -> exists x, In x l /\ R x y.
Proof.
  induction 1 as [|x y' l l' Hxy _ IH]; intros Hy; [destruct Hy|].
  destruct Hy as [->|Hy]; [exists x; split; [now left|exact Hxy]|].
  destruct (IH Hy) as (x0 & Hx0 & HR). exists x0. split; [now right|exact HR].
Qed.

Lemma firstn_short {A} (n : nat) (l : list A) :
  (List.length (firstn n l) < n)%nat -> firstn n l = l.
Proof.
  intro H. apply firstn_all2. rewrite length_firstn in H. lia.
Qed.

(** X28: a backfill that succeeds and reports fewer rows than its limit
    (the [limit] of the request, at most 200, 50 if it gives none or one
    that is not positive) is complete: with [id] the primary key, no row
    of the museum is left without an embedding. *)
Theorem backfill_below_limit_is_complete
  (fuel : nat) (env : Seed.Env) (db db' : Seed.Db) (b : Seed.IngestRequest)
  (m : string) (n : nat) :
  NoDup (map Seed.rid (Seed.content_chunks db)) ->
  Seed.museum_id b = Some m ->
  Seed.urls b = None \/ Seed.urls b = Some [] ->
  Seed.handler fuel env db (Seed.post b)
  = Some (Seed.json 200 (Seed.Updated n), db') ->
  (Z.of_nat n < Seed.clampLimit (Seed.limit b))%Z ->
  filter (Seed.missing (uuid_in m)) (Seed.content_chunks db') = [].
Proof.
  intros Hnd Hm Hurls.
  unfold Seed.handler, Seed.post, Seed.tryBlock.
  cbn [Seed.req_method Seed.req_json].
  destruct (_ || _)%bool; [discriminate|].
  destruct (Seed.getSupabaseUrl env); [discriminate|].
  rewrite Hm. cbn [truthy].
  destruct (m =? "")%string; [discriminate|].
  destruct (isValidUuid m); cbn [negb]; [|discriminate].
  assert (Hmode : match Seed.urls b with
                  | Some (url :: rest) =>
                      Seed.fullIngest fuel env db m b (url :: rest)
                  | _ => Some (Seed.backfill env db m b)
                  end = Some (Seed.backfill env db m b)).
  { destruct Hurls as [->| ->]; reflexivity. }
  rewrite Hmode. clear Hmode.
  unfold Seed.backfill. cbv zeta. unfold Seed.getChunksWithoutEmbedding.
  destruct (Seed.select_error env (Seed.clock db)); [discriminate|].
  set (found := sort _ (filter (Seed.missing (uuid_in m)) (Seed.content_chunks db))).
  set (chunks := firstn _ found).
  assert (Hchunks : forall c, In c chunks ->
                              In c (Seed.content_chunks db)
                              /\ Seed.missing (uuid_in m) c = true).
  { intros c Hc. unfold chunks, found in Hc.
    apply in_firstn, in_sort, filter_In in Hc. exact Hc. }
  assert (Hall : (List.length chunks < Z.to_nat (Seed.clampLimit (Seed.limit b)))%nat ->
                 forall r, In r (Seed.content_chunks db) ->
                           Seed.missing (uuid_in m) r = true -> In r chunks).
  { intros Hshort r Hr Hmiss. unfold chunks. rewrite firstn_short by exact Hshort.
    unfold found. apply in_sort, filter_In. auto. }
  destruct (Nat.eqb_spec (List.length chunks) 0) as [Hzero|Hpos].
  { intros H Hn. injection H as <- <-. cbn [Seed.content_chunks Seed.tick].
    destruct (filter _ (Seed.content_chunks db)) as [|r rest] eqn:E; [reflexivity|].
    assert (Hr : In r (filter (Seed.missing (uuid_in m)) (Seed.content_chunks db)))
      by (rewrite E; now left).
    apply filter_In in Hr as [Hr Hmiss].
    apply Hall in Hr; [|lia|exact Hmiss].
    destruct chunks; [destruct Hr|discriminate Hzero]. }
  destruct (Seed.getEmbeddings env _ _) as [msg|embeddings]; [discriminate|].
  destruct (Nat.eqb_spec (List.length embeddings) (List.length chunks)) as [Heq|Hneq];
    cbn [negb]; [|discriminate].
  destruct (Seed.updateAll env _ chunks embeddings 0) as [db2 r] eqn:E.
  destruct r as [msg|k]; [discriminate|].
  intros H Hn. injection H as <- <-.
  pose proof (Forall2_refl_backfilled (uuid_in m) (Seed.content_chunks db)) as Hrefl.
  destruct (@updateAll_spec env (uuid_in m) _ Hnd chunks embeddings
              (Seed.tick (Seed.tick db)) db2 0 (inr k) Hchunks Hrefl E) as [H1 H2].
  specialize (H2 k eq_refl).
  assert (Hset : forall r, In r (Seed.content_chunks db2) ->
                           In (Seed.rid r) (map Seed.rid chunks) ->
                           Sql.embedding (Seed.chunk r) <> None).
  { intros r Hr Hid.
    apply (@updateAll_sets env chunks embeddings (Seed.tick (Seed.tick db)) db2 0 k []
             Heq); auto. }
  destruct (filter _ (Seed.content_chunks db2)) as [|r rest] eqn:Ef; [reflexivity|].
  exfalso.
  assert (Hr : In r (filter (Seed.missing (uuid_in m)) (Seed.content_chunks db2)))
    by (rewrite Ef; now left).
  apply filter_In in Hr as [Hr Hmiss].
  destruct (@Forall2_in_right _ _ _ _ _ _ H1 Hr) as (r0 & Hr0 & HR).
  assert (Hnone : Sql.embedding (Seed.chunk r) = None).
  { unfold Seed.missing in Hmiss. apply andb_true_iff in Hmiss as [_ Hmiss].
    destruct (Sql.embedding (Seed.chunk r)); [discriminate Hmiss|reflexivity]. }
  destruct HR as [->|(_ & e & ->)]; [|discriminate Hnone].
  apply (Hset r0 Hr); [|exact Hnone].
  apply in_map. apply Hall; auto. lia.
Qed.

Lemma backfill_below_limit_is_complete_witness :
  filter (Seed.missing (uuid_in (MuseumRow.id akg)))
    (Seed.content_chunks (snd Seed.afterBackfill)) = [].
Proof.
  apply (@backfill_below_limit_is_complete 0 Seed.sampleEnv Seed.sampleDb
           (snd Seed.afterBackfill) Seed.sampleBackfill (MuseumRow.id akg) 1).
  - vm_compute. repeat constructor; cbn; intuition discriminate.
  - reflexivity.
  - left. reflexivity.
  - vm_compute. reflexivity.
  - vm_compute. reflexivity.
Defined.

(* ================================================================== *)
(** ** CitationList: the badge of a cited source *)

(** Rounding to binary64 does not cross an integer: a positive rational
    below 2^52 that lies between two integers is rounded to a double
    between them. *)
Lemma round_pos_between (n d c1 c2 : Z) :
  (0 < d)%Z -> (0 < n)%Z -> (n < 2 ^ 52 * d)%Z ->
  (0 <= c1)%Z -> (c1 * d <= n)%Z -> (n <= c2 * d)%Z ->
  exists r, Parse.round_pos n d = Some r
            /\ inject_Z c1 <= r /\ r <= inject_Z c2.
Proof.
  intros Hd Hn Hsmall Hc1 Hlo Hhi. unfold Parse.round_pos.
  set (e0 := (Z.log2 n - Z.log2 d)%Z).
  set (below := if (0 <=? e0)%Z then (n <? d * 2 ^ e0)%Z
                else (n * 2 ^ (- e0) <? d)%Z).
  set (e := if below then (e0 - 1)%Z else e0).
  assert (He : (e < 52)%Z).
  { assert (He0 : (e0 <= 52)%Z).
    { unfold e0.
      assert (Z.log2 n <= Z.log2 (d * 2 ^ 52))%Z by (apply Z.log2_le_mono; lia).
      rewrite Z.log2_mul_pow2 in H by lia. lia. }
    unfold e. destruct (Z.eq_dec e0 52) as [E52|].
    - assert (Hb : below = true).
      { unfold below. rewrite E52. cbn [Z.leb Z.compare].
        apply Z.ltb_lt. lia. }
      rewrite Hb. lia.
    - destruct below; lia. }
  set (u := Z.max (e - 52) (-1074)).
  assert (Hu : (u < 0)%Z) by (unfold u; lia).
  assert (Hu' : (-1074 <= u)%Z) by (unfold u; lia).
  destruct (Z.ltb_spec u 0) as [_|]; [|lia].
  destruct (Z.leb_spec 0 u) as [|_]; [lia|].
  rewrite andb_false_r.
  set (P := (2 ^ (- u))%Z).
  assert (HP : (0 < P)%Z) by (unfold P; apply Z.pow_pos_nonneg; lia).
  set (m0 := (n * P / d)%Z). set (r := ((n * P) mod d)%Z).
  assert (Hdiv : (n * P = d * m0 + r)%Z) by (apply Z.div_mod; lia).
  assert (Hr : (0 <= r < d)%Z) by (apply Z.mod_pos_bound; lia).
  set (up := ((d <? 2 * r)%Z || ((d =? 2 * r)%Z && Z.odd m0))%bool).
  set (m := if up then (m0 + 1)%Z else m0).
  assert (Hm0lo : (c1 * P <= m0)%Z).
  { unfold m0. apply Z.div_le_lower_bound; [lia|nia]. }
  assert (Hmlo : (c1 * P <= m)%Z) by (unfold m; destruct up; lia).
  assert (Hmhi : (m <= c2 * P)%Z).
  { assert (Hm0hi : (m0 <= c2 * P)%Z).
    { unfold m0. apply Z.div_le_upper_bound; [lia|nia]. }
    unfold m. destruct up eqn:Eup; [|exact Hm0hi].
    destruct (Z.eq_dec m0 (c2 * P)) as [Heq|]; [|lia].
    exfalso. assert (r = 0)%Z by nia. subst r.
    unfold up in Eup. rewrite H in Eup.
    destruct (Z.ltb_spec d (2 * 0)); [lia|].
    destruct (Z.eqb_spec d (2 * 0)); [lia|]. discriminate Eup. }
  eexists. split; [reflexivity|].
  rewrite Qred_correct. fold P. fold m.
  unfold Qle. cbn [Qnum Qden inject_Z].
  rewrite Z2Pos.id by exact HP. lia.
Qed.

Lemma round_between (q : Q) (c1 c2 : Z) :
  inject_Z c1 <= q -> q <= inject_Z c2 ->
  exists p : Z, Badge.round (Num q) = Num (inject_Z p) /\ (c1 <= p <= c2)%Z.
Proof.
  intros Hlo Hhi. exists (Qfloor (q + (1 # 2))). split; [reflexivity|]. split.
  - rewrite <- (Qfloor_Z c1). apply Qfloor_resp_le. lra.
  - assert (H : inject_Z (Qfloor (q + (1 # 2))) < inject_Z (c2 + 1)).
    { apply Qle_lt_trans with (q + (1 # 2)); [apply Qfloor_le|].
      rewrite inject_Z_plus. change (inject_Z 1) with 1%Q. lra. }
    rewrite <- Zlt_Qlt in H. lia.
Qed.

(** The percentage of a similarity that lies between two hundredths. *)
Lemma pct_between (q : Q) (c1 c2 : Z) :
  (0 < c1)%Z -> (c2 <= 100)%Z ->
  inject_Z c1 / 100 <= q -> q <= inject_Z c2 / 100 ->
  exists p : Z, Badge.pct (Num q) = Num (inject_Z p) /\ (c1 <= p <= c2)%Z.
Proof.
  intros Hc1 Hc2 Hlo Hhi. unfold Badge.pct, Badge.times100.
  destruct q as [n d].
  assert (Hlo' : (c1 * Z.pos d <= n * 100)%Z).
  { unfold Qle, Qdiv, Qmult, Qinv in Hlo. cbn in Hlo. lia. }
  assert (Hhi' : (n * 100 <= c2 * Z.pos d)%Z).
  { unfold Qle, Qdiv, Qmult, Qinv in Hhi. cbn in Hhi. lia. }
  assert (Hn : (0 < n)%Z) by nia.
  cbn [Qnum Qden]. destruct (Z.eqb_spec n 0); [lia|].
  destruct (Z.ltb_spec n 0); [lia|].
  rewrite Z.abs_eq by lia.
  assert (Hsmall : (n * 100 < 2 ^ 52 * Z.pos d)%Z).
  { change (2 ^ 52)%Z with 4503599627370496%Z. nia. }
  destruct (@round_pos_between (n * 100) (Z.pos d) c1 c2) as (r & -> & H1 & H2);
    try lia.
  now apply round_between.
Qed.

Lemma label_of (p : Z) :
  Badge.label (Num (inject_Z p))
  = if (70 <=? p)%Z then "Strong"%string
    else if (50 <=? p)%Z then "Good"%string else "Weak"%string.
Proof.
  unfold Badge.label. cbn [Number.ge].
  assert (H : forall c : Z, Qle_bool (inject_Z c) (inject_Z p) = (c <=? p)%Z).
  { intro c. destruct (Z.leb_spec c p) as [Hle|Hgt].
    - apply Qle_bool_iff. now rewrite <- Zle_Qle.
    - destruct (Qle_bool (inject_Z c) (inject_Z p)) eqn:E; [|reflexivity].
      apply Qle_bool_iff in E. rewrite <- Zle_Qle in E. lia. }
  change 70%Q with (inject_Z 70). change 50%Q with (inject_Z 50).
  now rewrite !H.
Qed.

(** X29: a source that passed the relevance gate of rag_chat (similarity
    at least 0.45) and whose similarity is at most 1 is shown with a
    whole percentage from 45 to 100.  It is labelled "Strong" from 0.70
    on, "Good" from 0.50 to 0.69 and "Weak" up to 0.49: the weakest of the
    matches that the backend counts as strong are shown as weak. *)
Theorem badge_of_a_cited_source (q : Q) :
  Number.ge (Num q) MIN_SIMILARITY = true ->
  q <= 1 ->
  exists p : Z,
    Badge.pct (Num q) = Num (inject_Z p)
    /\ (45 <= p <= 100)%Z
    /\ (7 # 10 <= q -> Badge.label (Badge.pct (Num q)) = "Strong"%string)
    /\ (1 # 2 <= q -> q <= 69 # 100 ->
        Badge.label (Badge.pct (Num q)) = "Good"%string)
    /\ (q <= 49 # 100 -> Badge.label (Badge.pct (Num q)) = "Weak"%string).
Proof.
  intros Hgate Hone. rewrite MIN_SIMILARITY_value in Hgate.
  cbn [Number.ge] in Hgate. apply Qle_bool_iff in Hgate.
  assert (Hlo : inject_Z 45 / 100 <= q).
  { eapply Qle_trans; [|exact Hgate]. unfold Qle. cbn. lia. }
  destruct (@pct_between q 45 100) as (p & Hp & Hrange); try lia; auto.
  { eapply Qle_trans; [exact Hone|]. unfold Qle. cbn. lia. }
  exists p. split; [exact Hp|]. split; [exact Hrange|].
  repeat split.
  - intro H. destruct (@pct_between q 70 100) as (p' & Hp' & Hr'); try lia.
    + eapply Qle_trans; [|exact H]. unfold Qle. cbn. lia.
    + eapply Qle_trans; [exact Hone|]. unfold Qle. cbn. lia.
    + rewrite Hp', label_of. destruct (Z.leb_spec 70 p'); [reflexivity|lia].
  - intros H1 H2. destruct (@pct_between q 50 69) as (p' & Hp' & Hr'); try lia.
    + eapply Qle_trans; [|exact H1]. unfold Qle. cbn. lia.
    + eapply Qle_trans; [exact H2|]. unfold Qle. cbn. lia.
    + rewrite Hp', label_of. destruct (Z.leb_spec 70 p'); [lia|].
      destruct (Z.leb_spec 50 p'); [reflexivity|lia].
  - intro H. destruct (@pct_between q 45 49) as (p' & Hp' & Hr'); try lia.
    + exact Hlo.
    + eapply Qle_trans; [exact H|]. unfold Qle. cbn. lia.
    + rewrite Hp', label_of. destruct (Z.leb_spec 70 p'); [lia|].
      destruct (Z.leb_spec 50 p'); [lia|reflexivity].
Qed.

Lemma badge_of_a_cited_source_witness :
  exists p : Z,
    Badge.pct (Num (47 # 100)) = Num (inject_Z p)
    /\ (45 <= p <= 100)%Z
    /\ (7 # 10 <= 47 # 100 ->
        Badge.label (Badge.pct (Num (47 # 100))) = "Strong"%string)
    /\ (1 # 2 <= 47 # 100 -> 47 # 100 <= 69 # 100 ->
        Badge.label (Badge.pct (Num (47 # 100))) = "Good"%string)
    /\ (47 # 100 <= 49 # 100 ->
        Badge.label (Badge.pct (Num (47 # 100))) = "Weak"%string).
Proof.
  apply (@badge_of_a_cited_source (47 # 100)).
  - vm_compute. reflexivity.
  - vm_compute. discriminate.
Defined.

(* ================================================================== *)
(** ** TicketRedeem and redeem_ticket together *)



